(** * pygcp.vertex: the embedding client, its retry loop and its batching loop

    A shallow embedding of [src/pygcp/vertex.py] (class [Embedding]).

    The class talks to two things it does not define: the Vertex AI model
    ([self.model.get_embeddings]) and numpy ([np.zeros], row assignment).
    Both are taken as parameters of the development:
    - the provider is an oracle indexed by the number of requests already
      sent, so that any schedule of failures and successes can be written;
    - numpy's reading of a provider item as a row of floats is a function
      that may fail.

    Python state is explicit: a heap holding the one [Embedding] instance
    (its attributes, each possibly not yet assigned) and the outside world
    (requests sent, time slept, lines printed).  A computation takes a heap
    and gives back a value or a raised exception, together with the heap it
    leaves behind: unlike a transaction, an exception does not undo the
    requests sent and the time slept before it. *)

From Stdlib Require Import ZArith Lia SpecFloat.
From stdpp Require Import base list strings.

Local Open Scope Z_scope.

(** ** Values *)

(** A Python [float]: IEEE 754 binary64.  No arithmetic is ever done on
    embedding components; they are only copied. *)
Definition float : Set := spec_float.

(** [0.0], the fill value of [np.zeros]. *)
Definition zero : float := S754_zero false.

(** An item of the list the provider returns.  The source reads its
    [.values] attribute ([embed[0].values], [_e.values]). *)
Record TextEmbedding := { values : list float }.

(** The exceptions (instances of Python's [Exception]) that occur.  The
    provider may raise any of them; [ProviderError] stands for the SDK's
    own error classes. *)
Inductive exn :=
| AttributeError (attr : string)
| TypeError (msg : string)
| IndexError (msg : string)
| ValueError (msg : string)
| ProviderError (msg : string).

(** What a call evaluates to: a value, or an exception on its way up. *)
Inductive outcome (A : Type) :=
| Return (a : A)
| Raise (e : exn).
Arguments Return {A} a.
Arguments Raise {A} e.

(** A two-dimensional numpy array of floats, as the list of its rows. *)
Definition Matrix := list (list float).

(** What [sequence] hands back: [None], the provider's own list of items,
    or a numpy array. *)
Inductive pyvalue :=
| PyNone
| PyList (items : list TextEmbedding)
| PyArray (a : Matrix).

(** The [input_data] argument of [get_embeddings_with_backoff] together with
    its [input_kind]: one string with ["str"], or a sequence with ["list"]. *)
Inductive input :=
| Str (input_string : string)
| Seq (input_seq : list string).

(** ** State *)

(** The attributes of an instance.  [None] is an attribute that has not
    been assigned yet: reading it raises [AttributeError]. *)
Record Embedding := mkEmbedding {
  model_version      : option string;
  api_request_limit  : option Z;
  model              : option string;
  size               : option Z;
  api_retry_limit    : option Z;
  api_retry_delay    : option Z;
  api_backoff_factor : option Z;
  verbose            : option bool
}.

(** The world outside the interpreter: every batch sent to the provider, in
    order; every duration passed to [time.sleep] that was slept; every
    diagnostic printed (the error and the wait). *)
Record World := mkWorld {
  requests : list (list string);
  slept    : list Z;
  printed  : list (exn * Z)
}.

Record Heap := mkHeap {
  self  : Embedding;
  world : World
}.

(** The instance before [__init__] runs: no attribute assigned. *)
Definition blank : Embedding :=
  mkEmbedding None None None None None None None None.

(** An instance with every attribute assigned. *)
Definition configured (mv : string) (limit D retries delay factor : Z)
    (vb : bool) : Embedding :=
  mkEmbedding (Some mv) (Some limit) (Some mv) (Some D) (Some retries)
              (Some delay) (Some factor) (Some vb).

Definition log_request (batch : list string) (h : Heap) : Heap :=
  mkHeap (self h)
         (mkWorld (requests (world h) ++ [batch]) (slept (world h))
                  (printed (world h))).

Definition log_sleep (wait : Z) (h : Heap) : Heap :=
  mkHeap (self h)
         (mkWorld (requests (world h)) (slept (world h) ++ [wait])
                  (printed (world h))).

Definition log_print (e : exn) (wait : Z) (h : Heap) : Heap :=
  mkHeap (self h)
         (mkWorld (requests (world h)) (slept (world h))
                  (printed (world h) ++ [(e, wait)])).

(** Number of requests the provider has received so far. *)
Definition ncalls (h : Heap) : nat := length (requests (world h)).

(** ** The monad of Python computations *)

Definition M (A : Type) : Type := Heap -> outcome A * Heap.

Definition ret {A} (a : A) : M A := fun h => (Return a, h).

Definition raise {A} (e : exn) : M A := fun h => (Raise e, h).

Definition bind {A B} (m : M A) (k : A -> M B) : M B :=
  fun h =>
    match m h with
    | (Return a, h') => k a h'
    | (Raise e, h') => (Raise e, h')
    end.

(** [try: body / except Exception as e: handler e]. *)
Definition try_except {A} (body : M A) (handler : exn -> M A) : M A :=
  fun h =>
    match body h with
    | (Return a, h') => (Return a, h')
    | (Raise e, h') => handler e h'
    end.

Declare Scope py_scope.
Delimit Scope py_scope with py.
Notation "x <- m ;; k" := (bind m (fun x => k))
  (at level 100, m at next level, right associativity) : py_scope.
Notation "m ;; k" := (bind m (fun _ => k))
  (at level 100, right associativity) : py_scope.
Local Open Scope py_scope.

(** [self.<attr>] read. *)
Definition getattr {A} (field : Embedding -> option A) (name : string) : M A :=
  fun h =>
    match field (self h) with
    | Some v => (Return v, h)
    | None => (Raise (AttributeError name), h)
    end.

(** [self.<attr> = v], one setter per attribute. *)
Definition setattr (update : Embedding -> Embedding) : M unit :=
  fun h => (Return tt, mkHeap (update (self h)) (world h)).

Definition set_model_version (v : string) (o : Embedding) : Embedding :=
  mkEmbedding (Some v) (api_request_limit o) (model o) (size o)
    (api_retry_limit o) (api_retry_delay o) (api_backoff_factor o) (verbose o).
Definition set_api_request_limit (v : Z) (o : Embedding) : Embedding :=
  mkEmbedding (model_version o) (Some v) (model o) (size o)
    (api_retry_limit o) (api_retry_delay o) (api_backoff_factor o) (verbose o).
Definition set_model (v : string) (o : Embedding) : Embedding :=
  mkEmbedding (model_version o) (api_request_limit o) (Some v) (size o)
    (api_retry_limit o) (api_retry_delay o) (api_backoff_factor o) (verbose o).
Definition set_size (v : Z) (o : Embedding) : Embedding :=
  mkEmbedding (model_version o) (api_request_limit o) (model o) (Some v)
    (api_retry_limit o) (api_retry_delay o) (api_backoff_factor o) (verbose o).
Definition set_api_retry_limit (v : Z) (o : Embedding) : Embedding :=
  mkEmbedding (model_version o) (api_request_limit o) (model o) (size o)
    (Some v) (api_retry_delay o) (api_backoff_factor o) (verbose o).
Definition set_api_retry_delay (v : Z) (o : Embedding) : Embedding :=
  mkEmbedding (model_version o) (api_request_limit o) (model o) (size o)
    (api_retry_limit o) (Some v) (api_backoff_factor o) (verbose o).
Definition set_api_backoff_factor (v : Z) (o : Embedding) : Embedding :=
  mkEmbedding (model_version o) (api_request_limit o) (model o) (size o)
    (api_retry_limit o) (api_retry_delay o) (Some v) (verbose o).
Definition set_verbose (v : bool) (o : Embedding) : Embedding :=
  mkEmbedding (model_version o) (api_request_limit o) (model o) (size o)
    (api_retry_limit o) (api_retry_delay o) (api_backoff_factor o) (Some v).

(** ** Python and library primitives *)

(** [range(n)]. *)
Definition range (n : Z) : list Z := Z.of_nat <$> seq 0 (Z.to_nat n).

(** [range(start, stop)]. *)
Definition range2 (start stop : Z) : list Z :=
  (fun k => start + Z.of_nat k) <$> seq 0 (Z.to_nat (stop - start)).

(** [range(start, stop, step)]: a zero step is an error, and the number of
    elements is CPython's: ceil((stop - start) / step) when that is
    positive. *)
Definition range3 (start stop step : Z) : M (list Z) :=
  if step =? 0 then raise (ValueError "range() arg 3 must not be zero")
  else
    let len := if 0 <? step then (stop - start + step - 1) / step
               else (start - stop - step - 1) / (- step) in
    ret ((fun k => start + Z.of_nat k * step) <$> seq 0 (Z.to_nat len)).

(** [enumerate(xs)]. *)
Definition enumerate {A} (xs : list A) : list (nat * A) :=
  zip (seq 0 (length xs)) xs.

(** [xs[ix1:ix2]] for indices that are not negative (the only ones the
    source slices with: the loop that slices runs with a positive step). *)
Definition slice {A} (xs : list A) (ix1 ix2 : Z) : list A :=
  take (Z.to_nat ix2 - Z.to_nat ix1)%nat (drop (Z.to_nat ix1) xs).

(** [xs[i]] on a list, [i] not negative. *)
Definition getitem {A} (xs : list A) (i : nat) : M A :=
  match xs !! i with
  | Some x => ret x
  | None => raise (IndexError "list index out of range")
  end.

(** [time.sleep(wait)]: refuses a negative duration, otherwise the calling
    thread is suspended for [wait] seconds. *)
Definition sleep (wait : Z) : M unit :=
  if wait <? 0 then raise (ValueError "sleep length must be non-negative")
  else fun h => (Return tt, log_sleep wait h).

(** [print(f"Error: {e}. Waiting {wait} seconds to retry...")]. *)
Definition print (e : exn) (wait : Z) : M unit :=
  fun h => (Return tt, log_print e wait h).

(** [np.zeros([n, d])]. *)
Definition np_zeros (n d : Z) : M Matrix :=
  if (n <? 0) || (d <? 0)
  then raise (ValueError "negative dimensions are not allowed")
  else ret (replicate (Z.to_nat n) (replicate (Z.to_nat d) zero)).

(** Fitting a vector into a row of width [w], by numpy's broadcasting: the
    same length, or a single value repeated. *)
Definition broadcast (v : list float) (w : nat) : M (list float) :=
  if (length v =? w)%nat then ret v
  else match v with
       | [x] => ret (replicate w x)
       | _ => raise (ValueError "could not broadcast input array")
       end.

(** ** The class *)

Module Embedding.
Section Methods.

(** [self.model.get_embeddings]: the provider.  Its answer may depend on
    how many requests it has already received and on the batch. *)
Variable provider : nat -> list String.string -> outcome (list TextEmbedding).

(** [TextEmbeddingModel.from_pretrained]: binds to the provider and gives
    the model handle, or fails. *)
Variable from_pretrained : String.string -> outcome String.string.

(** What numpy makes of a provider item assigned to a row of floats. *)
Variable asarray : TextEmbedding -> outcome (list float).

Definition lift {A} (o : outcome A) : M A := fun h => (o, h).

(** [self.model.get_embeddings(input_data)]: one request. *)
Definition get_embeddings (input_data : list String.string)
    : M (list TextEmbedding) :=
  _ <- getattr model "model" ;;
  fun h => (provider (ncalls h) input_data, log_request input_data h).

(** [a[j] = item] on a two-dimensional array. *)
Definition np_setitem (a : Matrix) (j : Z) (item : TextEmbedding) : M Matrix :=
  let n := Z.of_nat (length a) in
  let j := if j <? 0 then j + n else j in
  if (j <? 0) || (n <=? j)
  then raise (IndexError "index is out of bounds for axis 0")
  else
    v <- lift (asarray item) ;;
    row <- broadcast v (length (default [] (a !! Z.to_nat j))) ;;
    ret (<[Z.to_nat j := row]> a).

(** [if input_kind == "str": input_data = [input_data]]. *)
Definition as_batch (input_data : input) : list String.string :=
  match input_data with
  | Str input_string => [input_string]
  | Seq input_seq => input_seq
  end.

(** One turn of the [for _r in range(self.api_retry_limit)] loop.
    [Some embed] is [return embed] from inside the [try]; [None] is the
    end of the [except] block, after which the loop goes on. *)
Definition attempt (input_data : list String.string) (verbose : bool) (_r : Z)
    : M (option (list TextEmbedding)) :=
  try_except
    (embed <- get_embeddings input_data ;; ret (Some embed))
    (fun e =>
       delay <- getattr api_retry_delay "api_retry_delay" ;;
       factor <- getattr api_backoff_factor "api_backoff_factor" ;;
       let wait := delay * factor ^ _r in
       (if verbose then print e wait else ret tt) ;;
       sleep wait ;;
       ret None).

(** The loop itself; running off its end reaches the bare [return]. *)
Fixpoint attempts (input_data : list String.string) (verbose : bool)
    (rs : list Z) : M (option (list TextEmbedding)) :=
  match rs with
  | [] => ret None
  | _r :: rs =>
      r <- attempt input_data verbose _r ;;
      match r with
      | Some embed => ret (Some embed)
      | None => attempts input_data verbose rs
      end
  end.

(** [None] is Python's [None]; [Some embed] is the provider's list. *)
Definition get_embeddings_with_backoff (input_data : input) (verbose : bool)
    : M (option (list TextEmbedding)) :=
  let input_data := as_batch input_data in
  retries <- getattr api_retry_limit "api_retry_limit" ;;
  attempts input_data verbose (range retries).

Definition string (input_string : String.string) : M (list float) :=
  embed <- get_embeddings_with_backoff (Str input_string) false ;;
  match embed with
  | None => raise (TypeError "'NoneType' object is not subscriptable")
  | Some embed => e <- getitem embed 0 ;; ret (values e)
  end.

Definition __init__ (model_version_arg : String.string) : M unit :=
  setattr (set_model_version model_version_arg) ;;
  setattr (set_api_request_limit 5) ;;
  mv <- getattr model_version "model_version" ;;
  m <- lift (from_pretrained mv) ;;
  setattr (set_model m) ;;
  probe <- string "dummy data" ;;
  setattr (set_size (Z.of_nat (length probe))) ;;
  setattr (set_api_retry_limit 5) ;;
  setattr (set_api_retry_delay 5) ;;
  setattr (set_api_backoff_factor 2) ;;
  setattr (set_verbose false).

Definition _sequence_old (input_seq : list String.string)
    : M (list (list float)) :=
  embed <- get_embeddings input_seq ;;
  ret (values <$> embed).

(** The [for _arl in range(self.api_retry_limit)] loop of [_sequence];
    [embed] is the local variable, [None] until a request succeeds. *)
Fixpoint _sequence_loop (input_seq : list String.string)
    (embed : option (list TextEmbedding)) (rs : list Z)
    : M (option (list TextEmbedding)) :=
  match rs with
  | [] => ret embed
  | _arl :: rs =>
      embed <- try_except
                 (e <- get_embeddings input_seq ;; ret (Some e))
                 (fun _ => ret embed) ;;
      _sequence_loop input_seq embed rs
  end.

Definition _sequence (input_seq : list String.string)
    : M (list (list float)) :=
  retries <- getattr api_retry_limit "api_retry_limit" ;;
  embed <- _sequence_loop input_seq None (range retries) ;;
  match embed with
  | None => raise (TypeError "'NoneType' object is not iterable")
  | Some embed => ret (values <$> embed)
  end.

(** [for iy, j in enumerate(range(ix1, ix1 + len(subset_seq))):
       a[j] = embed[iy]]. *)
Fixpoint write_rows (a : Matrix) (embed : list TextEmbedding)
    (pairs : list (nat * Z)) : M Matrix :=
  match pairs with
  | [] => ret a
  | (iy, j) :: pairs =>
      item <- getitem embed iy ;;
      a <- np_setitem a j item ;;
      write_rows a embed pairs
  end.

(** [for i in range(0, n, self.api_request_limit)]: both ways out of the
    loop, the [return a] inside it and the one after it, give [a]. *)
Fixpoint chunk_loop (input_seq : list String.string) (a : Matrix)
    (starts : list Z) : M Matrix :=
  match starts with
  | [] => ret a
  | i :: starts =>
      let ix1 := i in
      limit <- getattr api_request_limit "api_request_limit" ;;
      let ix2 := i + limit in
      let subset_seq := slice input_seq ix1 ix2 in
      embed <- get_embeddings_with_backoff (Seq subset_seq) false ;;
      match embed with
      | None => ret a
      | Some embed =>
          a <- write_rows a embed
                 (enumerate (range2 ix1 (ix1 + Z.of_nat (length subset_seq)))) ;;
          chunk_loop input_seq a starts
      end
  end.

Definition sequence (input_seq : list String.string) : M pyvalue :=
  let n := Z.of_nat (length input_seq) in
  limit <- getattr api_request_limit "api_request_limit" ;;
  if n <=? limit then
    embed <- get_embeddings_with_backoff (Seq input_seq) false ;;
    ret (match embed with
         | None => PyNone
         | Some embed => PyList embed
         end)
  else
    d <- getattr size "size" ;;
    a <- np_zeros n d ;;
    limit <- getattr api_request_limit "api_request_limit" ;;
    starts <- range3 0 n limit ;;
    a <- chunk_loop input_seq a starts ;;
    ret (PyArray a).

End Methods.
End Embedding.

(** ** Notions used to state the properties *)

(** A computation that leaves the instance as it found it. *)
Definition frames {A} (m : M A) : Prop :=
  forall h, self (m h).2 = self h.

(** A computation that sends at most [k] requests, each of them [batch]. *)
Definition sends (batch : list string) (k : nat) {A} (m : M A) : Prop :=
  forall h, exists j, (j <= k)%nat /\
    requests (world (m h).2) = requests (world h) ++ replicate j batch.

(** The wait the [except] block computes on attempt [r]. *)
Definition delay_of (retry_delay backoff_factor r : Z) : Z :=
  retry_delay * backoff_factor ^ r.

(** The provider fails on the request it receives as its [k]-th. *)
Definition fails_at (provider : nat -> list string -> outcome (list TextEmbedding))
    (k : nat) (batch : list string) : Prop :=
  exists e, provider k batch = Raise e.

(** The provider keeps its side of the interface: an answer holds one item
    per string of the batch, each with [D] components. *)
Definition well_shaped (provider : nat -> list string -> outcome (list TextEmbedding))
    (D : Z) : Prop :=
  forall k batch items,
    provider k batch = Return items ->
    length items = length batch /\
    Forall (fun item => length (values item) = Z.to_nat D) items.

(** The slices [sequence] cuts, in the order of its loop:
    [input_seq[i : i + limit]] for [i] in [range(0, n, limit)]. *)
Definition chunk_starts (limit : Z) (n : nat) : list Z :=
  (fun k => 0 + Z.of_nat k * limit) <$>
    seq 0 (Z.to_nat ((Z.of_nat n - 0 + limit - 1) / limit)).

Definition chunks (limit : Z) (input_seq : list string) : list (list string) :=
  (fun i => slice input_seq i (i + limit)) <$>
    chunk_starts limit (length input_seq).

(** The retry primitive run on a list of batches one after the other, as
    long as it gives a result: the results and the heap reached, or [None]
    when one of the batches ends without a result or raises. *)
Fixpoint served (provider : nat -> list string -> outcome (list TextEmbedding))
    (batches : list (list string)) (h : Heap)
    : option (list (list TextEmbedding) * Heap) :=
  match batches with
  | [] => Some ([], h)
  | batch :: batches =>
      match Embedding.get_embeddings_with_backoff provider (Seq batch) false h with
      | (Return (Some embed), h') =>
          match served provider batches h' with
          | Some (done, h'') => Some (embed :: done, h'')
          | None => None
          end
      | _ => None
      end
  end.

(** The heap after [n] more requests for [batch] and nothing else. *)
Definition log_requests (n : nat) (batch : list string) (h : Heap) : Heap :=
  mkHeap (self h)
         (mkWorld (requests (world h) ++ replicate n batch) (slept (world h))
                  (printed (world h))).

(** The value of the local variable [embed] of [_sequence] after [n] more
    turns of its loop, the first of them being the provider's [k]-th
    request: each answer replaces it, a failure leaves it as it is. *)
Fixpoint last_answer (provider : nat -> list string -> outcome (list TextEmbedding))
    (batch : list string) (k n : nat) (embed : option (list TextEmbedding))
    : option (list TextEmbedding) :=
  match n with
  | O => embed
  | S n =>
      last_answer provider batch (S k) n
        (match provider k batch with
         | Return e => Some e
         | Raise _ => embed
         end)
  end.

(** From the spec's words, for comparison with [_sequence]: it "keeps only
    the last attempt's outcome", so that what it gives is decided by the
    last of its [api_retry_limit] requests alone. *)
Definition keeps_only_last_attempt
    (provider : nat -> list string -> outcome (list TextEmbedding))
    (input_seq : list string) (h : Heap) : Prop :=
  match api_retry_limit (self h) with
  | Some retries =>
      match provider (ncalls h + Z.to_nat retries - 1)%nat input_seq with
      | Return items =>
          (Embedding._sequence provider input_seq h).1
          = Return (values <$> items)
      | Raise _ =>
          exists e, (Embedding._sequence provider input_seq h).1 = Raise e
      end
  | None => True
  end.

(** ** A provider, a numpy and an instance to run the model on *)

(** A two-component embedding that tells strings of different lengths
    apart. *)
Definition demo_embed (s : string) : TextEmbedding :=
  {| values := [S754_finite false (Pos.of_nat (String.length s)) 0;
                S754_finite false 1 0] |}.

Definition always_up (k : nat) (batch : list string)
    : outcome (list TextEmbedding) :=
  Return (demo_embed <$> batch).

Definition always_down (k : nat) (batch : list string)
    : outcome (list TextEmbedding) :=
  Raise (ProviderError "503 service unavailable").

(** Answers its first [n] requests, fails on all later ones. *)
Definition up_until (n k : nat) (batch : list string)
    : outcome (list TextEmbedding) :=
  if (k <? n)%nat then always_up k batch else always_down k batch.

(** Fails on its first [n] requests, answers all later ones. *)
Definition down_until (n k : nat) (batch : list string)
    : outcome (list TextEmbedding) :=
  if (k <? n)%nat then always_down k batch else always_up k batch.

Definition bound (mv : string) : outcome string := Return mv.

(** numpy taking an item for the vector of its values. *)
Definition by_values (item : TextEmbedding) : outcome (list float) :=
  Return (values item).

Definition quiet : World := mkWorld [] [] [].

Definition demo_heap (limit retries : Z) : Heap :=
  mkHeap (configured "textembedding-gecko@001" limit 2 retries 1 2 false) quiet.

(** ** Notions used to state further properties of the class *)

(** Heaps that differ at most in what was printed. *)
Definition same_but_printed (h1 h2 : Heap) : Prop :=
  self h1 = self h2
  /\ requests (world h1) = requests (world h2)
  /\ slept (world h1) = slept (world h2).

(** Two computations that, started on heaps that differ at most in what
    was printed, end alike and on such heaps again. *)
Definition agree {A} (m1 m2 : M A) : Prop :=
  forall h1 h2, same_but_printed h1 h2 ->
    (m1 h1).1 = (m2 h2).1 /\ same_but_printed (m1 h1).2 (m2 h2).2.

(** A computation that never prints. *)
Definition silent {A} (m : M A) : Prop :=
  forall h, printed (world (m h).2) = printed (world h).

(** Started on a heap whose instance is [o], the computation keeps the
    instance and sends at most [bound] requests, each of which satisfies
    [P]. *)
Definition obeys (o : Embedding) (P : list string -> Prop) (bound : nat)
    {A} (m : M A) : Prop :=
  forall h, self h = o ->
    self (m h).2 = o
    /\ exists new,
         requests (world (m h).2) = requests (world h) ++ new
         /\ Forall P new
         /\ (length new <= bound)%nat.

(** An array of [n] rows of [d] components. *)
Definition shaped (n d : nat) (a : Matrix) : Prop :=
  length a = n /\ Forall (fun row : list float => length row = d) a.

(** Whatever the computation returns satisfies [Q]. *)
Definition returns_only {A} (Q : A -> Prop) (m : M A) : Prop :=
  forall h a h', m h = (Return a, h') -> Q a.

(** The time slept in all, in seconds. *)
Definition total (waits : list Z) : Z := foldr Z.add 0 waits.

(** A provider that answers every request with an empty list. *)
Definition answers_nothing (k : nat) (batch : list string)
    : outcome (list TextEmbedding) :=
  Return [].

(** A numpy that cannot read an item as a row. *)
Definition unreadable (item : TextEmbedding) : outcome (list float) :=
  Raise (TypeError "float() argument must be a string or a real number").

(** ** Proofs *)

Section Proofs.

Variable provider : nat -> list string -> outcome (list TextEmbedding).
Variable from_pretrained : string -> outcome string.
Variable asarray : TextEmbedding -> outcome (list float).

(** *** Frame rules *)

Lemma frames_ret {A} (a : A) : frames (ret a).
Proof. intros h. reflexivity. Qed.

Lemma frames_raise {A} (e : exn) : frames (@raise A e).
Proof. intros h. reflexivity. Qed.

Lemma frames_bind {A B} (m : M A) (k : A -> M B) :
  frames m -> (forall a, frames (k a)) -> frames (bind m k).
Proof.
  intros Hm Hk h. unfold bind. specialize (Hm h).
  destruct (m h) as [[a|e] h']; simpl in *.
  - rewrite Hk. exact Hm.
  - exact Hm.
Qed.

Lemma frames_try_except {A} (body : M A) (handler : exn -> M A) :
  frames body -> (forall e, frames (handler e)) ->
  frames (try_except body handler).
Proof.
  intros Hb Hh h. unfold try_except. specialize (Hb h).
  destruct (body h) as [[a|e] h']; simpl in *.
  - exact Hb.
  - rewrite Hh. exact Hb.
Qed.

Lemma frames_getattr {A} (field : Embedding -> option A) name :
  frames (getattr field name).
Proof. intros h. unfold getattr. destruct (field (self h)); reflexivity. Qed.

Lemma frames_lift {A} (o : outcome A) : frames (Embedding.lift o).
Proof. intros h. reflexivity. Qed.

Lemma frames_sleep wait : frames (sleep wait).
Proof. intros h. unfold sleep. destruct (wait <? 0); reflexivity. Qed.

Lemma frames_print e wait : frames (print e wait).
Proof. intros h. reflexivity. Qed.

Lemma frames_getitem {A} (xs : list A) i : frames (getitem xs i).
Proof. intros h. unfold getitem. destruct (xs !! i); reflexivity. Qed.

Lemma frames_broadcast v w : frames (broadcast v w).
Proof.
  intros h. unfold broadcast.
  destruct (length v =? w)%nat; [reflexivity|].
  destruct v as [|x [|y v]]; reflexivity.
Qed.

Lemma frames_np_zeros n d : frames (np_zeros n d).
Proof. intros h. unfold np_zeros. destruct (_ || _); reflexivity. Qed.

Lemma frames_range3 start stop step : frames (range3 start stop step).
Proof. intros h. unfold range3. destruct (step =? 0); reflexivity. Qed.

Create HintDb frame.
Hint Resolve frames_ret frames_raise frames_getattr frames_lift frames_sleep
  frames_print frames_getitem frames_broadcast frames_np_zeros
  frames_range3 : frame.

Ltac frame :=
  repeat first
    [ solve [auto with frame]
    | apply frames_bind; [|intros ?]
    | apply frames_try_except; [|intros ?]
    | match goal with
      | |- frames (match ?x with _ => _ end) => destruct x
      | |- frames (if ?x then _ else _) => destruct x
      end ].

Lemma frames_get_embeddings batch :
  frames (Embedding.get_embeddings provider batch).
Proof.
  unfold Embedding.get_embeddings. frame. intros h. reflexivity.
Qed.
Hint Resolve frames_get_embeddings : frame.

Lemma frames_np_setitem a j item :
  frames (Embedding.np_setitem asarray a j item).
Proof.
  unfold Embedding.np_setitem. cbv zeta. frame.
Qed.
Hint Resolve frames_np_setitem : frame.

Lemma frames_attempt batch vb r :
  frames (Embedding.attempt provider batch vb r).
Proof. unfold Embedding.attempt. frame. Qed.
Hint Resolve frames_attempt : frame.

Lemma frames_attempts batch vb rs :
  frames (Embedding.attempts provider batch vb rs).
Proof.
  induction rs as [|r rs IH]; simpl; frame.
Qed.
Hint Resolve frames_attempts : frame.

Lemma frames_get_embeddings_with_backoff input_data vb :
  frames (Embedding.get_embeddings_with_backoff provider input_data vb).
Proof. unfold Embedding.get_embeddings_with_backoff. frame. Qed.
Hint Resolve frames_get_embeddings_with_backoff : frame.

Lemma frames_string s : frames (Embedding.string provider s).
Proof. unfold Embedding.string. frame. Qed.

Lemma frames__sequence_loop batch embed rs :
  frames (Embedding._sequence_loop provider batch embed rs).
Proof.
  revert embed. induction rs as [|r rs IH]; intros embed; simpl; frame.
Qed.

Lemma frames_write_rows a embed pairs :
  frames (Embedding.write_rows asarray a embed pairs).
Proof.
  revert a. induction pairs as [|[iy j] pairs IH]; intros a; simpl; frame.
Qed.
Hint Resolve frames_write_rows : frame.

Lemma frames_chunk_loop texts a starts :
  frames (Embedding.chunk_loop provider asarray texts a starts).
Proof.
  revert a. induction starts as [|i starts IH]; intros a; simpl; frame.
Qed.
Hint Resolve frames_chunk_loop : frame.

Lemma frames_sequence texts :
  frames (Embedding.sequence provider asarray texts).
Proof.
  unfold Embedding.sequence. cbv zeta. frame.
Qed.


(** *** The retry loop *)

Lemma attempt_success batch vb r h items m :
  model (self h) = Some m ->
  provider (ncalls h) batch = Return items ->
  Embedding.attempt provider batch vb r h
  = (Return (Some items), log_request batch h).
Proof.
  intros Hm Hp.
  unfold Embedding.attempt, try_except, Embedding.get_embeddings, bind, getattr.
  rewrite Hm. cbn beta iota. rewrite Hp. reflexivity.
Qed.

Lemma attempt_failure batch vb r h e m d f :
  model (self h) = Some m ->
  api_retry_delay (self h) = Some d ->
  api_backoff_factor (self h) = Some f ->
  provider (ncalls h) batch = Raise e ->
  0 <= delay_of d f r ->
  Embedding.attempt provider batch vb r h
  = (Return None,
     log_sleep (delay_of d f r)
       (if vb then log_print e (delay_of d f r) (log_request batch h)
        else log_request batch h)).
Proof.
  intros Hm Hd Hf Hp Hw.
  unfold Embedding.attempt, try_except, Embedding.get_embeddings, bind, getattr.
  rewrite Hm. cbn beta iota. rewrite Hp. cbn beta iota.
  repeat change (self (log_request batch h)) with (self h).
  rewrite Hd. cbn beta iota.
  repeat change (self (log_request batch h)) with (self h).
  rewrite Hf. cbn beta iota zeta. fold (delay_of d f r). unfold sleep.
  destruct (Z.ltb_spec (delay_of d f r) 0) as [?|_]; [lia|].
  destruct vb; reflexivity.
Qed.

Lemma attempts_failures batch vb m d f rs : forall h rest,
  model (self h) = Some m ->
  api_retry_delay (self h) = Some d ->
  api_backoff_factor (self h) = Some f ->
  (forall j, (j < length rs)%nat -> fails_at provider (ncalls h + j) batch) ->
  Forall (fun r => 0 <= delay_of d f r) rs ->
  exists h',
    Embedding.attempts provider batch vb (rs ++ rest) h
    = Embedding.attempts provider batch vb rest h'
    /\ self h' = self h
    /\ requests (world h') = requests (world h) ++ replicate (length rs) batch
    /\ slept (world h') = slept (world h) ++ (delay_of d f <$> rs)
    /\ (vb = false -> printed (world h') = printed (world h)).
Proof.
  induction rs as [|r rs IH]; intros h rest Hm Hd Hf Hfail Hw.
  - exists h. simpl. rewrite !app_nil_r. auto.
  - apply Forall_cons in Hw as [Hr Hw].
    destruct (Hfail 0%nat) as [e He]; [simpl; lia|].
    rewrite Nat.add_0_r in He.
    set (h1 := log_sleep (delay_of d f r)
                 (if vb then log_print e (delay_of d f r) (log_request batch h)
                  else log_request batch h)).
    assert (Hself : self h1 = self h) by (subst h1; destruct vb; reflexivity).
    assert (Hreq : requests (world h1) = requests (world h) ++ [batch])
      by (subst h1; destruct vb; reflexivity).
    assert (Hsl : slept (world h1) = slept (world h) ++ [delay_of d f r])
      by (subst h1; destruct vb; reflexivity).
    destruct (IH h1 rest) as (h' & Hrun & Hs' & Hr' & Hsl' & Hp').
    + rewrite Hself. exact Hm.
    + rewrite Hself. exact Hd.
    + rewrite Hself. exact Hf.
    + intros j Hj. unfold ncalls. rewrite Hreq, length_app. simpl.
      replace (length (requests (world h)) + 1 + j)%nat
        with (ncalls h + S j)%nat by (unfold ncalls; lia).
      apply Hfail. simpl. lia.
    + exact Hw.
    + exists h'. split.
      { cbn [app Embedding.attempts]. unfold bind at 1.
        rewrite (attempt_failure batch vb r h e m d f Hm Hd Hf He Hr).
        fold h1. exact Hrun. }
      split; [congruence|].
      split.
      { rewrite Hr', Hreq. rewrite <- app_assoc. reflexivity. }
      split.
      { rewrite Hsl', Hsl. rewrite <- app_assoc. reflexivity. }
      intros ->. rewrite Hp' by reflexivity. reflexivity.
Qed.

(** *** Counting requests *)

Lemma sends_weaken {A} batch k k' (m : M A) :
  (k <= k')%nat -> sends batch k m -> sends batch k' m.
Proof.
  intros Hk Hm h. destruct (Hm h) as (j & Hj & E).
  exists j. split; [lia | exact E].
Qed.

Lemma sends_pure {A} batch (m : M A) :
  (forall h, world (m h).2 = world h) -> sends batch 0 m.
Proof.
  intros Hm h. exists 0%nat. split; [lia|].
  rewrite Hm. simpl. rewrite app_nil_r. reflexivity.
Qed.

Lemma sends_bind {A B} batch k1 k2 (m : M A) (k : A -> M B) :
  sends batch k1 m -> (forall a, sends batch k2 (k a)) ->
  sends batch (k1 + k2) (bind m k).
Proof.
  intros Hm Hk h. unfold bind. destruct (Hm h) as (j1 & Hj1 & E1).
  destruct (m h) as [[a|e] h1]; simpl in *.
  - destruct (Hk a h1) as (j2 & Hj2 & E2).
    exists (j1 + j2)%nat. split; [lia|].
    rewrite E2, E1, replicate_add, app_assoc. reflexivity.
  - exists j1. split; [lia | exact E1].
Qed.

Lemma sends_try_except {A} batch k1 k2 (body : M A) (handler : exn -> M A) :
  sends batch k1 body -> (forall e, sends batch k2 (handler e)) ->
  sends batch (k1 + k2) (try_except body handler).
Proof.
  intros Hb Hh h. unfold try_except. destruct (Hb h) as (j1 & Hj1 & E1).
  destruct (body h) as [[a|e] h1]; simpl in *.
  - exists j1. split; [lia | exact E1].
  - destruct (Hh e h1) as (j2 & Hj2 & E2).
    exists (j1 + j2)%nat. split; [lia|].
    rewrite E2, E1, replicate_add, app_assoc. reflexivity.
Qed.

Lemma sends_getattr {A} batch (field : Embedding -> option A) name :
  sends batch 0 (getattr field name).
Proof.
  apply sends_pure. intros h. unfold getattr.
  destruct (field (self h)); reflexivity.
Qed.

Lemma sends_sleep batch wait : sends batch 0 (sleep wait).
Proof.
  intros h. exists 0%nat. split; [lia|]. unfold sleep.
  destruct (wait <? 0); simpl; rewrite app_nil_r; reflexivity.
Qed.

Lemma sends_print batch e wait : sends batch 0 (print e wait).
Proof.
  intros h. exists 0%nat. split; [lia|]. simpl. rewrite app_nil_r. reflexivity.
Qed.

Lemma sends_get_embeddings batch :
  sends batch 1 (Embedding.get_embeddings provider batch).
Proof.
  intros h. unfold Embedding.get_embeddings, bind, getattr.
  destruct (model (self h)); simpl.
  - exists 1%nat. split; [lia | reflexivity].
  - exists 0%nat. split; [lia|]. rewrite app_nil_r. reflexivity.
Qed.

Lemma sends_attempt batch vb r :
  sends batch 1 (Embedding.attempt provider batch vb r).
Proof.
  unfold Embedding.attempt.
  apply (sends_try_except batch 1 0).
  - apply (sends_bind batch 1 0); [apply sends_get_embeddings|].
    intros a. apply sends_pure. reflexivity.
  - intros e.
    apply (sends_bind batch 0 0); [apply sends_getattr | intros d].
    apply (sends_bind batch 0 0); [apply sends_getattr | intros f].
    apply (sends_bind batch 0 0).
    { destruct vb; [apply sends_print | apply sends_pure; reflexivity]. }
    intros _.
    apply (sends_bind batch 0 0); [apply sends_sleep | intros _].
    apply sends_pure. reflexivity.
Qed.

(** However the attempts go, there are no more requests than turns. *)
Lemma sends_attempts batch vb rs :
  sends batch (length rs) (Embedding.attempts provider batch vb rs).
Proof.
  induction rs as [|r rs IH]; simpl.
  - apply sends_pure. reflexivity.
  - apply (sends_bind batch 1 (length rs)); [apply sends_attempt|].
    intros [embed|]; [|exact IH].
    apply (sends_weaken batch 0); [lia|]. apply sends_pure. reflexivity.
Qed.

Lemma sends_get_embeddings_with_backoff input_data vb retries h :
  api_retry_limit (self h) = Some retries ->
  exists j, (j <= Z.to_nat retries)%nat /\
    requests (world (Embedding.get_embeddings_with_backoff provider input_data vb h).2)
    = requests (world h) ++ replicate j (Embedding.as_batch input_data).
Proof.
  intros Hr. unfold Embedding.get_embeddings_with_backoff, bind, getattr.
  rewrite Hr. cbn beta iota zeta.
  destruct (sends_attempts (Embedding.as_batch input_data) vb (range retries) h)
    as (j & Hj & E).
  exists j. split; [|exact E].
  unfold range in Hj. rewrite length_fmap, length_seq in Hj. exact Hj.
Qed.


(** *** The retry primitive as a whole *)

Lemma delay_of_nonneg d f r : 0 <= d -> 0 <= f -> 0 <= delay_of d f r.
Proof.
  intros Hd Hf. unfold delay_of.
  apply Z.mul_nonneg_nonneg; [exact Hd|]. apply Z.pow_nonneg. exact Hf.
Qed.

Lemma Forall_delay_nonneg d f rs :
  0 <= d -> 0 <= f -> Forall (fun r => 0 <= delay_of d f r) rs.
Proof.
  intros Hd Hf. apply Forall_forall. intros r _.
  apply delay_of_nonneg; assumption.
Qed.

Lemma range_split (retries : Z) (m : nat) :
  (m < Z.to_nat retries)%nat ->
  range retries
  = range (Z.of_nat m) ++ Z.of_nat m
      :: (Z.of_nat <$> seq (S m) (Z.to_nat retries - S m)).
Proof.
  intros Hm. unfold range. rewrite Nat2Z.id.
  replace (Z.to_nat retries) with (m + S (Z.to_nat retries - S m))%nat at 1
    by lia.
  rewrite seq_app, fmap_app. reflexivity.
Qed.

Lemma length_range n : length (range n) = Z.to_nat n.
Proof. unfold range. rewrite length_fmap, length_seq. reflexivity. Qed.

Lemma backoff_all_fail input_data vb h m d f retries :
  model (self h) = Some m ->
  api_retry_limit (self h) = Some retries ->
  api_retry_delay (self h) = Some d ->
  api_backoff_factor (self h) = Some f ->
  0 <= d -> 0 <= f ->
  (forall j, (j < Z.to_nat retries)%nat ->
     fails_at provider (ncalls h + j) (Embedding.as_batch input_data)) ->
  exists h',
    Embedding.get_embeddings_with_backoff provider input_data vb h
    = (Return None, h')
    /\ self h' = self h
    /\ requests (world h')
       = requests (world h)
           ++ replicate (Z.to_nat retries) (Embedding.as_batch input_data)
    /\ slept (world h') = slept (world h) ++ (delay_of d f <$> range retries)
    /\ (vb = false -> printed (world h') = printed (world h)).
Proof.
  intros Hm Hr Hd Hf Hd0 Hf0 Hfail.
  destruct (attempts_failures (Embedding.as_batch input_data) vb m d f
              (range retries) h [] Hm Hd Hf) as (h' & Hrun & Hrest).
  - rewrite length_range. exact Hfail.
  - apply Forall_delay_nonneg; assumption.
  - exists h'. split.
    + unfold Embedding.get_embeddings_with_backoff, bind, getattr.
      rewrite Hr. cbn beta iota zeta.
      rewrite app_nil_r in Hrun. rewrite Hrun. reflexivity.
    + rewrite length_range in Hrest. exact Hrest.
Qed.

Lemma backoff_first_success input_data vb h m d f retries k items :
  model (self h) = Some m ->
  api_retry_limit (self h) = Some retries ->
  api_retry_delay (self h) = Some d ->
  api_backoff_factor (self h) = Some f ->
  0 <= d -> 0 <= f ->
  (k < Z.to_nat retries)%nat ->
  (forall j, (j < k)%nat ->
     fails_at provider (ncalls h + j) (Embedding.as_batch input_data)) ->
  provider (ncalls h + k) (Embedding.as_batch input_data) = Return items ->
  exists h',
    Embedding.get_embeddings_with_backoff provider input_data vb h
    = (Return (Some items), h')
    /\ self h' = self h
    /\ requests (world h')
       = requests (world h)
           ++ replicate (S k) (Embedding.as_batch input_data)
    /\ slept (world h')
       = slept (world h) ++ (delay_of d f <$> range (Z.of_nat k))
    /\ (vb = false -> printed (world h') = printed (world h)).
Proof.
  intros Hm Hr Hd Hf Hd0 Hf0 Hk Hfail Hok.
  set (batch := Embedding.as_batch input_data) in *.
  destruct (attempts_failures batch vb m d f (range (Z.of_nat k)) h
              (Z.of_nat k :: (Z.of_nat <$> seq (S k) (Z.to_nat retries - S k)))
              Hm Hd Hf)
    as (h1 & Hrun & Hs1 & Hr1 & Hsl1 & Hp1).
  - rewrite length_range, Nat2Z.id. exact Hfail.
  - apply Forall_delay_nonneg; assumption.
  - rewrite length_range, Nat2Z.id in Hr1.
    assert (Hn1 : ncalls h1 = (ncalls h + k)%nat).
    { unfold ncalls. rewrite Hr1, length_app, length_replicate. reflexivity. }
    exists (log_request batch h1). split.
    + unfold Embedding.get_embeddings_with_backoff, bind, getattr.
      rewrite Hr. cbn beta iota zeta. fold batch.
      rewrite (range_split retries k Hk), Hrun.
      cbn [Embedding.attempts]. unfold bind.
      rewrite (attempt_success batch vb (Z.of_nat k) h1 items m).
      * reflexivity.
      * rewrite Hs1. exact Hm.
      * rewrite Hn1. exact Hok.
    + split; [exact Hs1|]. split.
      { cbn [log_request world requests]. rewrite Hr1, <- app_assoc.
        f_equal. change [batch] with (replicate 1 batch).
        rewrite <- replicate_add. f_equal. lia. }
      split; [exact Hsl1 | exact Hp1].
Qed.

Lemma first_success_or_all_fail batch k0 n :
  (forall j, (j < n)%nat -> fails_at provider (k0 + j) batch)
  \/ exists k items, (k < n)%nat
       /\ (forall j, (j < k)%nat -> fails_at provider (k0 + j) batch)
       /\ provider (k0 + k) batch = Return items.
Proof.
  induction n as [|n IH].
  - left. intros j Hj. lia.
  - destruct IH as [Hall | Hex].
    + destruct (provider (k0 + n) batch) as [items|e] eqn:E.
      * right. exists n, items. split; [lia|]. split; [|exact E].
        intros j Hj. apply Hall. exact Hj.
      * left. intros j Hj.
        destruct (decide (j = n)) as [->|Hne].
        { exists e. exact E. }
        apply Hall. lia.
    + right. destruct Hex as (k & items & Hk & Hfail & Hok).
      exists k, items. split; [lia|]. split; assumption.
Qed.


(** *** [_sequence] *)

Lemma _sequence_loop_run batch m rs : forall embed h,
  model (self h) = Some m ->
  Embedding._sequence_loop provider batch embed rs h
  = (Return (last_answer provider batch (ncalls h) (length rs) embed),
     log_requests (length rs) batch h).
Proof.
  induction rs as [|r rs IH]; intros embed h Hm.
  - simpl. unfold ret, log_requests. simpl. rewrite app_nil_r.
    destruct h as [o [rq sl pr]]. reflexivity.
  - cbn [Embedding._sequence_loop length last_answer].
    unfold bind at 1, try_except, Embedding.get_embeddings, bind, getattr.
    rewrite Hm. cbn beta iota.
    assert (Hn : ncalls (log_request batch h) = S (ncalls h)).
    { unfold ncalls. simpl. rewrite length_app. simpl. lia. }
    assert (Hh : log_requests (length rs) batch (log_request batch h)
                 = log_requests (S (length rs)) batch h).
    { unfold log_requests, log_request. simpl. rewrite <- app_assoc.
      reflexivity. }
    destruct (provider (ncalls h) batch) as [e|e];
      unfold ret; cbn beta iota;
      rewrite IH by exact Hm; rewrite Hn, Hh; reflexivity.
Qed.

Lemma last_answer_all_fail batch n : forall k embed,
  (forall j, (j < n)%nat -> fails_at provider (k + j) batch) ->
  last_answer provider batch k n embed = embed.
Proof.
  induction n as [|n IH]; intros k embed Hfail; [reflexivity|].
  simpl. destruct (Hfail 0%nat) as [e He]; [lia|].
  rewrite Nat.add_0_r in He. rewrite He. apply IH.
  intros j Hj. replace (S k + j)%nat with (k + S j)%nat by lia.
  apply Hfail. lia.
Qed.

Lemma last_answer_last_success batch n : forall k embed i items,
  (i < n)%nat ->
  provider (k + i) batch = Return items ->
  (forall j, (i < j < n)%nat -> fails_at provider (k + j) batch) ->
  last_answer provider batch k n embed = Some items.
Proof.
  induction n as [|n IH]; intros k embed i items Hi Hok Hfail; [lia|].
  simpl. destruct i as [|i].
  - rewrite Nat.add_0_r in Hok. rewrite Hok.
    apply last_answer_all_fail. intros j Hj.
    replace (S k + j)%nat with (k + S j)%nat by lia. apply Hfail. lia.
  - apply (IH (S k) _ i items); [lia | |].
    + replace (S k + i)%nat with (k + S i)%nat by lia. exact Hok.
    + intros j Hj. replace (S k + j)%nat with (k + S j)%nat by lia.
      apply Hfail. lia.
Qed.

Lemma _sequence_run batch h m retries :
  model (self h) = Some m ->
  api_retry_limit (self h) = Some retries ->
  Embedding._sequence provider batch h
  = (match last_answer provider batch (ncalls h) (Z.to_nat retries) None with
     | Some embed => Return (values <$> embed)
     | None => Raise (TypeError "'NoneType' object is not iterable")
     end,
     log_requests (Z.to_nat retries) batch h).
Proof.
  intros Hm Hr. unfold Embedding._sequence, bind at 1, getattr.
  rewrite Hr. cbn beta iota. unfold bind.
  rewrite (_sequence_loop_run batch m) by exact Hm.
  rewrite length_range.
  destruct (last_answer _ _ _ _ _); reflexivity.
Qed.


(** *** The claims on the retry primitive *)

(** C2.  For every batch, the retry primitive sends the provider at most
    [retry_limit] requests; the first request that is answered ends it at
    once with that answer and nothing more is sent; and when all
    [retry_limit] requests fail it gives [None], which is not the empty
    list, after exactly [retry_limit] requests. *)
Theorem backoff_request_budget input_data vb h mv limit D retries d f vb0 :
  self h = configured mv limit D retries d f vb0 ->
  0 <= retries -> 0 <= d -> 0 <= f ->
  let batch := Embedding.as_batch input_data in
  let run := Embedding.get_embeddings_with_backoff provider input_data vb h in
  (exists j, Z.of_nat j <= retries
     /\ requests (world run.2) = requests (world h) ++ replicate j batch)
  /\ (forall k items,
        Z.of_nat k < retries ->
        (forall j, (j < k)%nat -> fails_at provider (ncalls h + j) batch) ->
        provider (ncalls h + k) batch = Return items ->
        run.1 = Return (Some items)
        /\ requests (world run.2)
           = requests (world h) ++ replicate (S k) batch)
  /\ ((forall j, Z.of_nat j < retries ->
         fails_at provider (ncalls h + j) batch) ->
      run.1 = Return None
      /\ run.1 <> Return (Some [])
      /\ requests (world run.2)
         = requests (world h) ++ replicate (Z.to_nat retries) batch
      /\ Z.of_nat (ncalls run.2) = Z.of_nat (ncalls h) + retries).
Proof.
  intros Hself Hr0 Hd0 Hf0 batch run.
  assert (Hm : model (self h) = Some mv) by (rewrite Hself; reflexivity).
  assert (Hr : api_retry_limit (self h) = Some retries)
    by (rewrite Hself; reflexivity).
  assert (Hd : api_retry_delay (self h) = Some d)
    by (rewrite Hself; reflexivity).
  assert (Hf : api_backoff_factor (self h) = Some f)
    by (rewrite Hself; reflexivity).
  split; [|split].
  - destruct (sends_get_embeddings_with_backoff input_data vb retries h Hr)
      as (j & Hj & E).
    exists j. split; [lia | exact E].
  - intros k items Hk Hfail Hok.
    destruct (backoff_first_success input_data vb h mv d f retries k items
                Hm Hr Hd Hf Hd0 Hf0) as (h' & Hrun & _ & Hreq & _);
      [lia | exact Hfail | exact Hok |].
    subst run. rewrite Hrun. split; [reflexivity | exact Hreq].
  - intros Hfail.
    destruct (backoff_all_fail input_data vb h mv d f retries
                Hm Hr Hd Hf Hd0 Hf0) as (h' & Hrun & _ & Hreq & _).
    { intros j Hj. apply Hfail. lia. }
    subst run. rewrite Hrun. cbn [fst snd].
    split; [reflexivity|]. split; [discriminate|]. split; [exact Hreq|].
    unfold ncalls. rewrite Hreq, length_app, length_replicate. lia.
Qed.

(** C3.  What the code does where the claim has it sleep only between two
    attempts: when every request fails, a sleep follows every failed
    attempt, the last one included, so the waits are [delay(0)], ...,
    [delay(retry_limit - 1)], and the last thing the primitive does before
    it gives [None] is to sleep [delay(retry_limit - 1)]. *)
Theorem backoff_sleeps_after_every_failure input_data vb h mv limit D retries
    d f vb0 :
  self h = configured mv limit D retries d f vb0 ->
  1 <= retries -> 0 <= d -> 0 <= f ->
  (forall j, Z.of_nat j < retries ->
     fails_at provider (ncalls h + j) (Embedding.as_batch input_data)) ->
  let run := Embedding.get_embeddings_with_backoff provider input_data vb h in
  run.1 = Return None
  /\ slept (world run.2) = slept (world h) ++ (delay_of d f <$> range retries)
  /\ length (slept (world run.2))
     = (length (slept (world h)) + Z.to_nat retries)%nat
  /\ last (slept (world run.2)) = Some (delay_of d f (retries - 1)).
Proof.
  intros Hself Hr0 Hd0 Hf0 Hfail run.
  destruct (backoff_all_fail input_data vb h mv d f retries)
    as (h' & Hrun & _ & _ & Hsl & _);
    try (rewrite Hself; reflexivity); try assumption.
  { intros j Hj. apply Hfail. lia. }
  subst run. rewrite Hrun. cbn [fst snd].
  split; [reflexivity|]. split; [exact Hsl|]. split.
  - rewrite Hsl, length_app, length_fmap, length_range. reflexivity.
  - rewrite Hsl. unfold range.
    replace (Z.to_nat retries) with (S (Z.to_nat (retries - 1))) by lia.
    rewrite seq_S, !fmap_app, app_assoc. cbn [fmap list_fmap].
    rewrite last_snoc. f_equal. f_equal. lia.
Qed.

(** *** The claims on [string], [__init__] and [_sequence] *)

(** C8.  [string] fails exactly when every one of the [retry_limit]
    requests for its one-string batch fails (the error is the [TypeError]
    of subscripting [None]); as soon as one of them is answered it gives
    the vector of the only item of that answer, whatever failed before. *)
Theorem string_fails_iff_exhausted s h mv limit D retries d f vb0 :
  self h = configured mv limit D retries d f vb0 ->
  0 <= d -> 0 <= f ->
  well_shaped provider D ->
  let run := Embedding.string provider s h in
  ((exists e, run.1 = Raise e) <->
   (forall j, (j < Z.to_nat retries)%nat ->
      fails_at provider (ncalls h + j) [s]))
  /\ ((forall j, (j < Z.to_nat retries)%nat ->
         fails_at provider (ncalls h + j) [s]) ->
      run.1 = Raise (TypeError "'NoneType' object is not subscriptable"))
  /\ (forall k items,
        (k < Z.to_nat retries)%nat ->
        (forall j, (j < k)%nat -> fails_at provider (ncalls h + j) [s]) ->
        provider (ncalls h + k) [s] = Return items ->
        exists item, items = [item] /\ run.1 = Return (values item)).
Proof.
  intros Hself Hd0 Hf0 Hshape run.
  assert (Hm : model (self h) = Some mv) by (rewrite Hself; reflexivity).
  assert (Hr : api_retry_limit (self h) = Some retries)
    by (rewrite Hself; reflexivity).
  assert (Hd : api_retry_delay (self h) = Some d)
    by (rewrite Hself; reflexivity).
  assert (Hf : api_backoff_factor (self h) = Some f)
    by (rewrite Hself; reflexivity).
  assert (Hall : (forall j, (j < Z.to_nat retries)%nat ->
                    fails_at provider (ncalls h + j) [s]) ->
                 run.1 = Raise (TypeError "'NoneType' object is not subscriptable")).
  { intros Hfail.
    destruct (backoff_all_fail (Str s) false h mv d f retries
                Hm Hr Hd Hf Hd0 Hf0 Hfail) as (h' & Hrun & _).
    subst run. unfold Embedding.string, bind. rewrite Hrun. reflexivity. }
  assert (Hone : forall k items,
            (k < Z.to_nat retries)%nat ->
            (forall j, (j < k)%nat -> fails_at provider (ncalls h + j) [s]) ->
            provider (ncalls h + k) [s] = Return items ->
            exists item, items = [item] /\ run.1 = Return (values item)).
  { intros k items Hk Hfail Hok.
    destruct (backoff_first_success (Str s) false h mv d f retries k items
                Hm Hr Hd Hf Hd0 Hf0 Hk Hfail Hok) as (h' & Hrun & _).
    destruct (Hshape _ _ _ Hok) as [Hlen _].
    destruct items as [|item [|item' items]]; try discriminate Hlen.
    exists item. split; [reflexivity|].
    subst run. unfold Embedding.string, bind. rewrite Hrun. reflexivity. }
  split; [|split; [exact Hall | exact Hone]].
  split; [|intros Hfail; eexists; apply Hall; exact Hfail].
  intros [e He].
  destruct (first_success_or_all_fail [s] (ncalls h) (Z.to_nat retries))
    as [Hfail | (k & items & Hk & Hfail & Hok)]; [exact Hfail|].
  destruct (Hone k items Hk Hfail Hok) as (item & _ & Hret).
  rewrite Hret in He. discriminate He.
Qed.

(** C10.  [string], [sequence] and [get_embeddings_with_backoff] leave
    the instance as they found it, on every heap and whatever the
    provider and numpy do: no attribute is assigned, deleted or changed.
    (The requests sent and the time slept are the world's, not the
    instance's.) *)
Theorem operations_frame_the_instance s texts input_data vb :
  frames (Embedding.string provider s)
  /\ frames (Embedding.sequence provider asarray texts)
  /\ frames (Embedding.get_embeddings_with_backoff provider input_data vb).
Proof.
  split; [apply frames_string|].
  split; [apply frames_sequence | apply frames_get_embeddings_with_backoff].
Qed.

(** C7.  What the code does where the claim has construction probe the
    provider once: [__init__] reads [api_retry_limit] (through [string])
    before it has assigned it, so it never returns: it raises, without
    one request sent and with [size] still unassigned; when the binding
    to the model succeeds the error is the [AttributeError]. *)
Theorem init_raises_before_probe mv w :
  let run := Embedding.__init__ provider from_pretrained mv (mkHeap blank w) in
  (exists e, run.1 = Raise e)
  /\ world run.2 = w
  /\ size (self run.2) = None
  /\ (forall m, from_pretrained mv = Return m ->
        run.1 = Raise (AttributeError "api_retry_limit")).
Proof.
  unfold Embedding.__init__, bind, setattr, getattr, Embedding.lift,
    Embedding.string, Embedding.get_embeddings_with_backoff.
  cbn. destruct (from_pretrained mv) as [m|e]; cbn.
  - split; [eexists; reflexivity|]. repeat split. 
  - split; [eexists; reflexivity|]. repeat split.
    intros m Hm. discriminate Hm.
Qed.


(** *** Cutting a sequence into chunks *)

Lemma slice_take_drop {A} (xs : list A) (limit : Z) (i : nat) :
  0 < limit ->
  slice xs (0 + Z.of_nat i * limit) (0 + Z.of_nat i * limit + limit)
  = take (Z.to_nat limit) (drop (i * Z.to_nat limit) xs).
Proof.
  intros Hl. unfold slice. f_equal.
  - nia.
  - f_equal. nia.
Qed.

Lemma chunk_count_covers (limit : Z) (n : nat) :
  0 < limit ->
  (n <= Z.to_nat ((Z.of_nat n - 0 + limit - 1) / limit) * Z.to_nat limit)%nat.
Proof.
  intros Hl.
  pose proof (Z.mul_succ_div_gt (Z.of_nat n - 0 + limit - 1) limit Hl).
  assert (0 <= (Z.of_nat n - 0 + limit - 1) / limit)
    by (apply Z.div_pos; lia).
  nia.
Qed.

Lemma chunk_count_tight (limit : Z) (n i : nat) :
  0 < limit ->
  (i < Z.to_nat ((Z.of_nat n - 0 + limit - 1) / limit))%nat ->
  (i * Z.to_nat limit < n)%nat.
Proof.
  intros Hl Hi.
  pose proof (Z.mul_div_le (Z.of_nat n - 0 + limit - 1) limit Hl).
  assert (0 <= (Z.of_nat n - 0 + limit - 1) / limit)
    by (apply Z.div_pos; lia).
  nia.
Qed.

Lemma chunks_take_drop (limit : Z) (texts : list string) :
  0 < limit ->
  chunks limit texts
  = (fun i => take (Z.to_nat limit) (drop (i * Z.to_nat limit) texts))
      <$> seq 0 (Z.to_nat ((Z.of_nat (length texts) - 0 + limit - 1) / limit)).
Proof.
  intros Hl. unfold chunks, chunk_starts. rewrite <- list_fmap_compose.
  apply list_fmap_ext. intros _ i _. simpl. apply slice_take_drop. exact Hl.
Qed.

Lemma concat_cuts {A} (L : nat) : forall (c : nat) (xs : list A),
  (length xs <= c * L)%nat ->
  concat ((fun i => take L (drop (i * L) xs)) <$> seq 0 c) = xs.
Proof.
  induction c as [|c IH]; intros xs Hlen.
  - simpl in *. destruct xs; [reflexivity | simpl in Hlen; lia].
  - cbn [seq fmap list_fmap concat]. rewrite <- fmap_S_seq, <- list_fmap_compose.
    simpl. rewrite drop_0.
    assert (E : ((fun i => take L (drop (i * L) xs)) ∘ S) <$> seq 0 c
                = (fun i => take L (drop (i * L) (drop L xs))) <$> seq 0 c).
    { apply list_fmap_ext. intros _ i _. simpl. rewrite drop_drop.
      reflexivity. }
    rewrite E, IH; [apply take_drop|]. rewrite length_drop. lia.
Qed.


(** *** Writing rows *)

Lemma enumerate_range2 (p m : nat) :
  enumerate (range2 (Z.of_nat p) (Z.of_nat p + Z.of_nat m))
  = (fun iy => (iy, Z.of_nat p + Z.of_nat iy)) <$> seq 0 m.
Proof.
  unfold enumerate, range2.
  replace (Z.to_nat (Z.of_nat p + Z.of_nat m - Z.of_nat p)) with m by lia.
  rewrite length_fmap, length_seq.
  generalize 0%nat. induction m as [|m IH]; intros t; [reflexivity|].
  simpl. f_equal. apply IH.
Qed.

Lemma np_setitem_row pre z post item h :
  asarray item = Return (values item) ->
  length (values item) = length z ->
  Embedding.np_setitem asarray (pre ++ z :: post) (Z.of_nat (length pre)) item h
  = (Return (pre ++ values item :: post), h).
Proof.
  intros Hnp Hlen. unfold Embedding.np_setitem, Matrix. cbv zeta.
  destruct (Z.ltb_spec (Z.of_nat (length pre)) 0) as [?|_]; [lia|].
  rewrite length_app. cbn [length].
  destruct (Z.ltb_spec (Z.of_nat (length pre)) 0) as [?|_]; [lia|].
  destruct (Z.leb_spec (Z.of_nat (length pre + S (length post)))
              (Z.of_nat (length pre))) as [?|_]; [lia|].
  cbn [orb]. unfold bind, Embedding.lift. rewrite Hnp. cbn beta iota.
  rewrite !Nat2Z.id.
  rewrite (list_lookup_middle pre post z (length pre) eq_refl).
  change (default [] (Some z)) with z. unfold broadcast.
  rewrite (proj2 (Nat.eqb_eq _ _) Hlen). unfold ret.
  rewrite insert_app_r_alt by lia. rewrite Nat.sub_diag. reflexivity.
Qed.

Lemma write_rows_fill embed (p Dn : nat) :
  (forall item, asarray item = Return (values item)) ->
  Forall (fun item => length (values item) = Dn) embed ->
  forall m t pre zs post h,
    length zs = m ->
    Forall (fun z => length z = Dn) zs ->
    length pre = (p + t)%nat ->
    (t + m <= length embed)%nat ->
    Embedding.write_rows asarray (pre ++ zs ++ post) embed
      ((fun iy => (iy, Z.of_nat p + Z.of_nat iy)) <$> seq t m) h
    = (Return (pre ++ (values <$> take m (drop t embed)) ++ post), h).
Proof.
  intros Hnp Hshape. induction m as [|m IH];
    intros t pre zs post h Hzs HD Hpre Hlen.
  - destruct zs; [|discriminate Hzs]. reflexivity.
  - destruct zs as [|z zs]; [discriminate Hzs|].
    apply Forall_cons in HD as [Hz HD].
    destruct (lookup_lt_is_Some_2 embed t) as [item Hitem]; [lia|].
    cbn [seq fmap list_fmap Embedding.write_rows].
    unfold bind at 1, getitem. rewrite Hitem. unfold ret at 1.
    replace (Z.of_nat p + Z.of_nat t) with (Z.of_nat (length pre)) by lia.
    cbn [app]. unfold bind.
    rewrite np_setitem_row.
    + rewrite (cons_middle (values item)), app_assoc.
      rewrite (IH (S t) (pre ++ [values item]) zs post h).
      * rewrite (drop_S _ _ _ Hitem). cbn [take fmap list_fmap].
        rewrite <- app_assoc. reflexivity.
      * simpl in Hzs. lia.
      * exact HD.
      * rewrite length_app. simpl. lia.
      * lia.
    + apply Hnp.
    + rewrite Hz. eapply Forall_lookup_1 in Hshape; [|exact Hitem].
      exact Hshape.
Qed.


(** *** Where an answer of the primitive comes from *)

Lemma attempt_answer batch vb r h embed h' :
  Embedding.attempt provider batch vb r h = (Return (Some embed), h') ->
  provider (ncalls h) batch = Return embed.
Proof.
  unfold Embedding.attempt, try_except, Embedding.get_embeddings, bind, getattr.
  destruct (model (self h)); cbn beta iota.
  - destruct (provider (ncalls h) batch) as [items|e]; cbn beta iota.
    + unfold ret. intros E. injection E as -> _. reflexivity.
    + destruct (api_retry_delay (self (log_request batch h))); cbn beta iota;
        [|discriminate].
      destruct (api_backoff_factor (self (log_request batch h)));
        cbn beta iota; [|discriminate].
      cbv zeta. unfold sleep.
      destruct vb; cbn; destruct (_ <? 0); cbn; discriminate.
  - destruct (api_retry_delay (self h)); cbn beta iota; [|discriminate].
    destruct (api_backoff_factor (self h)); cbn beta iota; [|discriminate].
    cbv zeta. unfold sleep.
    destruct vb; cbn; destruct (_ <? 0); cbn; discriminate.
Qed.

Lemma attempts_answer batch vb rs : forall h embed h',
  Embedding.attempts provider batch vb rs h = (Return (Some embed), h') ->
  exists k, provider k batch = Return embed.
Proof.
  induction rs as [|r rs IH]; intros h embed h'; [discriminate|].
  cbn [Embedding.attempts]. unfold bind at 1.
  destruct (Embedding.attempt provider batch vb r h) as [[[items|]|e] h1] eqn:E.
  - unfold ret. intros E'. injection E' as -> _.
    exists (ncalls h). eapply attempt_answer. exact E.
  - apply IH.
  - discriminate.
Qed.

Lemma backoff_answer input_data vb h embed h' :
  Embedding.get_embeddings_with_backoff provider input_data vb h
  = (Return (Some embed), h') ->
  exists k, provider k (Embedding.as_batch input_data) = Return embed.
Proof.
  unfold Embedding.get_embeddings_with_backoff, bind, getattr.
  destruct (api_retry_limit (self h)); cbn beta iota zeta; [|discriminate].
  apply attempts_answer.
Qed.


(** *** The chunk loop of [sequence] *)

Section ChunkLoop.

Variable texts : list string.
Variables (mv : string) (limit D retries d f : Z) (vb0 : bool).
Hypothesis Hlimit : 0 < limit.
Hypothesis HD : 0 <= D.
Hypothesis Hshape : well_shaped provider D.

(** The loop stores the provider's item itself in the row
    ([a[j] = embed[iy]]), where [string] and [_sequence] take the item's
    [values].  The lemmas of this section that use [Hnp] say what the loop
    would do with a numpy that reads such an item as its vector; what it
    does with a numpy that raises on it is in [RowAssignment] below. *)
Hypothesis Hnp : forall item, asarray item = Return (values item).

Local Abbreviation L := (Z.to_nat limit).
Local Abbreviation N := (length texts).
Local Abbreviation zrow := (replicate (Z.to_nat D) zero).
Local Abbreviation start := (fun i : nat => 0 + Z.of_nat i * limit).
Local Abbreviation cut := (fun i : nat => take L (drop (i * L) texts)).

Lemma chunk_step rows i rest h embed h1 :
  self h = configured mv limit D retries d f vb0 ->
  length rows = (i * L)%nat ->
  (i * L < N)%nat ->
  Embedding.get_embeddings_with_backoff provider (Seq (cut i)) false h
  = (Return (Some embed), h1) ->
  Embedding.chunk_loop provider asarray texts
    (rows ++ replicate (N - i * L) zrow) (start i :: rest) h
  = Embedding.chunk_loop provider asarray texts
      ((rows ++ (values <$> embed)) ++ replicate (N - S i * L) zrow) rest h1.
Proof.
  intros Hself Hrows Hi Hrun.
  destruct (backoff_answer _ _ _ _ _ Hrun) as [k Hk].
  destruct (Hshape _ _ _ Hk) as [Hlen Hvals]. cbn [Embedding.as_batch] in Hlen.
  cbn [Embedding.chunk_loop]. unfold bind at 1, getattr.
  rewrite Hself. cbn [api_request_limit configured]. cbv zeta.
  rewrite (slice_take_drop texts limit i Hlimit).
  unfold bind at 1. rewrite Hrun. cbn beta iota.
  set (m := length (take L (drop (i * L) texts))) in *.
  assert (Hm : m = Nat.min L (N - i * L)).
  { subst m. rewrite length_take, length_drop. reflexivity. }
  replace (0 + Z.of_nat i * limit) with (Z.of_nat (i * L)) by nia.
  rewrite enumerate_range2.
  replace (N - i * L)%nat with (m + (N - S i * L))%nat by lia.
  rewrite replicate_add. unfold bind.
  rewrite (write_rows_fill embed (i * L) (Z.to_nat D) Hnp Hvals m 0 rows
             (replicate m zrow) (replicate (N - S i * L) zrow) h1).
  - rewrite drop_0, take_ge by lia. rewrite app_assoc. reflexivity.
  - apply length_replicate.
  - apply Forall_replicate. apply length_replicate.
  - lia.
  - lia.
Qed.

Lemma backoff_keeps_self input_data vb h r h' :
  Embedding.get_embeddings_with_backoff provider input_data vb h = (r, h') ->
  self h' = self h.
Proof.
  intros E.
  pose proof (frames_get_embeddings_with_backoff input_data vb h) as F.
  rewrite E in F. exact F.
Qed.

Lemma chunk_loop_complete : forall cnt i rows h done h_end,
  self h = configured mv limit D retries d f vb0 ->
  length rows = Nat.min (i * L) N ->
  (forall j, (i <= j < i + cnt)%nat -> (j * L < N)%nat) ->
  served provider (cut <$> seq i cnt) h = Some (done, h_end) ->
  Embedding.chunk_loop provider asarray texts
    (rows ++ replicate (N - i * L) zrow) (start <$> seq i cnt) h
  = (Return (rows ++ (values <$> concat done)
               ++ replicate (N - (i + cnt) * L) zrow), h_end).
Proof.
  induction cnt as [|cnt IH]; intros i rows h done h_end Hself Hrows Hin Hserved.
  - cbn in Hserved. injection Hserved as <- <-.
    cbn. rewrite Nat.add_0_r. reflexivity.
  - cbn [seq fmap list_fmap served] in Hserved |- *.
    destruct (Embedding.get_embeddings_with_backoff provider
                (Seq (take L (drop (i * L) texts))) false h)
      as [[[embed|]|e] h1] eqn:Hrun; try discriminate Hserved.
    destruct (served provider (cut <$> seq (S i) cnt) h1)
      as [[done' h2]|] eqn:Hrest; [|discriminate Hserved].
    injection Hserved as <- <-.
    assert (Hi : (i * L < N)%nat) by (apply Hin; lia).
    destruct (backoff_answer _ _ _ _ _ Hrun) as [k Hk].
    destruct (Hshape _ _ _ Hk) as [Hlen _]. cbn [Embedding.as_batch] in Hlen.
    rewrite length_take, length_drop in Hlen.
    rewrite (chunk_step rows i _ h embed h1 Hself) by (try exact Hrun; lia).
    rewrite (IH (S i) (rows ++ (values <$> embed)) h1 done' h2).
    + cbn [concat]. rewrite fmap_app, <- !app_assoc.
      replace (S i + cnt)%nat with (i + S cnt)%nat by lia. reflexivity.
    + rewrite (backoff_keeps_self _ _ _ _ _ Hrun). exact Hself.
    + rewrite length_app, length_fmap, Hlen. lia.
    + intros j Hj. apply Hin. lia.
    + exact Hrest.
Qed.

Lemma chunk_loop_fail_fast : forall k i rows h done h_k h_fail rest,
  self h = configured mv limit D retries d f vb0 ->
  length rows = (i * L)%nat ->
  (forall j, (i <= j <= i + k)%nat -> (j * L < N)%nat) ->
  served provider (cut <$> seq i k) h = Some (done, h_k) ->
  Embedding.get_embeddings_with_backoff provider (Seq (cut (i + k)%nat)) false h_k
  = (Return None, h_fail) ->
  Embedding.chunk_loop provider asarray texts
    (rows ++ replicate (N - i * L) zrow)
    ((start <$> seq i k) ++ start (i + k)%nat :: rest) h
  = (Return (rows ++ (values <$> concat done)
               ++ replicate (N - (i + k) * L) zrow), h_fail).
Proof.
  induction k as [|k IH];
    intros i rows h done h_k h_fail rest Hself Hrows Hin Hserved Hfail.
  - cbn in Hserved. injection Hserved as <- <-.
    rewrite Nat.add_0_r in *.
    cbn [seq fmap list_fmap app Embedding.chunk_loop concat].
    unfold bind at 1, getattr.
    rewrite Hself. cbn [api_request_limit configured]. cbv zeta.
    rewrite (slice_take_drop texts limit i Hlimit).
    unfold bind. rewrite Hfail. reflexivity.
  - cbn [seq fmap list_fmap served app] in Hserved |- *.
    destruct (Embedding.get_embeddings_with_backoff provider
                (Seq (take L (drop (i * L) texts))) false h)
      as [[[embed|]|e] h1] eqn:Hrun; try discriminate Hserved.
    destruct (served provider (cut <$> seq (S i) k) h1)
      as [[done' h2]|] eqn:Hrest; [|discriminate Hserved].
    injection Hserved as <- <-.
    assert (Hi : (i * L < N)%nat) by (apply Hin; lia).
    assert (Hi' : (S i * L < N)%nat) by (apply Hin; lia).
    destruct (backoff_answer _ _ _ _ _ Hrun) as [k' Hk].
    destruct (Hshape _ _ _ Hk) as [Hlen _]. cbn [Embedding.as_batch] in Hlen.
    rewrite length_take, length_drop in Hlen.
    rewrite (chunk_step rows i _ h embed h1 Hself) by (try exact Hrun; lia).
    replace (i + S k)%nat with (S i + k)%nat in * by lia.
    rewrite (IH (S i) (rows ++ (values <$> embed)) h1 done' h2 h_fail rest).
    + cbn [concat]. rewrite fmap_app, <- !app_assoc. reflexivity.
    + rewrite (backoff_keeps_self _ _ _ _ _ Hrun). exact Hself.
    + rewrite length_app, length_fmap, Hlen. lia.
    + intros j Hj. apply Hin. lia.
    + exact Hrest.
    + exact Hfail.
Qed.


(** The [else] branch of [sequence], up to its loop. *)
Lemma sequence_large h :
  self h = configured mv limit D retries d f vb0 ->
  limit < Z.of_nat N ->
  Embedding.sequence provider asarray texts h
  = (a <- Embedding.chunk_loop provider asarray texts
            (replicate N zrow) (chunk_starts limit N) ;;
     ret (PyArray a)) h.
Proof.
  intros Hself Hn. unfold Embedding.sequence. cbv zeta.
  unfold bind at 1, getattr. rewrite Hself.
  cbn [api_request_limit configured].
  destruct (Z.leb_spec (Z.of_nat N) limit) as [?|_]; [lia|].
  unfold bind at 1. cbn [size configured self].
  rewrite Hself. cbn [size configured].
  unfold bind at 1, np_zeros.
  destruct (Z.ltb_spec (Z.of_nat N) 0) as [?|_]; [lia|].
  destruct (Z.ltb_spec D 0) as [?|_]; [lia|].
  cbn [orb]. unfold ret at 1. rewrite Nat2Z.id.
  unfold bind at 1. rewrite Hself. cbn [api_request_limit configured].
  unfold bind at 1, range3.
  destruct (Z.eqb_spec limit 0) as [?|_]; [lia|].
  destruct (Z.ltb_spec 0 limit) as [_|?]; [|lia].
  reflexivity.
Qed.

Lemma chunk_starts_seq :
  chunk_starts limit N
  = start <$> seq 0 (Z.to_nat ((Z.of_nat N - 0 + limit - 1) / limit)).
Proof. reflexivity. Qed.

Lemma served_shapes : forall batches h done h',
  served provider batches h = Some (done, h') ->
  Forall2 (fun (batch : list string) (embed : list TextEmbedding) =>
             length embed = length batch) batches done.
Proof.
  induction batches as [|batch batches IH]; intros h done h' Hs.
  - cbn in Hs. injection Hs as <- _. constructor.
  - cbn [served] in Hs.
    destruct (Embedding.get_embeddings_with_backoff provider (Seq batch) false h)
      as [[[embed|]|e] h1] eqn:Hrun; try discriminate Hs.
    destruct (served provider batches h1) as [[done' h2]|] eqn:Hrest;
      [|discriminate Hs].
    injection Hs as <- _.
    destruct (backoff_answer _ _ _ _ _ Hrun) as [k Hk].
    destruct (Hshape _ _ _ Hk) as [Hlen _].
    constructor; [exact Hlen | eapply IH; exact Hrest].
Qed.

Lemma served_widths : forall batches h done h',
  served provider batches h = Some (done, h') ->
  Forall (fun row : list float => length row = Z.to_nat D)
    (values <$> concat done).
Proof.
  induction batches as [|batch batches IH]; intros h done h' Hs.
  - cbn in Hs. injection Hs as <- _. constructor.
  - cbn [served] in Hs.
    destruct (Embedding.get_embeddings_with_backoff provider (Seq batch) false h)
      as [[[embed|]|e] h1] eqn:Hrun; try discriminate Hs.
    destruct (served provider batches h1) as [[done' h2]|] eqn:Hrest;
      [|discriminate Hs].
    injection Hs as <- _.
    destruct (backoff_answer _ _ _ _ _ Hrun) as [k Hk].
    destruct (Hshape _ _ _ Hk) as [_ Hvals].
    cbn [concat]. rewrite fmap_app. apply Forall_app. split.
    + apply Forall_fmap. exact Hvals.
    + eapply IH. exact Hrest.
Qed.

Lemma length_concat_Forall2 {A B} (xs : list (list A)) (ys : list (list B)) :
  Forall2 (fun x y => length y = length x) xs ys ->
  length (concat ys) = length (concat xs).
Proof.
  induction 1 as [|x y xs ys Hxy _ IH]; [reflexivity|].
  cbn [concat]. rewrite !length_app, Hxy, IH. reflexivity.
Qed.

Lemma length_concat_cuts k :
  (k * L <= N)%nat ->
  length (concat (cut <$> seq 0 k)) = (k * L)%nat.
Proof.
  induction k as [|k IH]; intros Hk; [reflexivity|].
  rewrite seq_S, fmap_app, concat_app, length_app, IH by lia.
  cbn. rewrite app_nil_r, length_take, length_drop. lia.
Qed.


Lemma chunks_lookup k batch :
  chunks limit texts !! k = Some batch ->
  batch = cut k
  /\ (k < Z.to_nat ((Z.of_nat N - 0 + limit - 1) / limit))%nat
  /\ (k * L < N)%nat.
Proof.
  rewrite (chunks_take_drop limit texts Hlimit), list_lookup_fmap.
  intros Hk. destruct (seq 0 _ !! k) as [j|] eqn:Hj; [|discriminate Hk].
  apply lookup_seq in Hj as [-> Hlt]. cbn in Hk.
  injection Hk as <-. split; [reflexivity|]. split; [exact Hlt|].
  eapply chunk_count_tight; [exact Hlimit | exact Hlt].
Qed.

(** With a numpy that reads an item as its vector ([Hnp]), and more
    strings than the request limit: when the retry primitive has answered
    for chunks 0 to k - 1 and gives [None] for chunk k, [sequence] returns
    at once, without raising and without a request for any later chunk
    (the heap it leaves is the one the failed call left): the array has N
    rows, those before the start of chunk k hold the vectors of the chunks
    done, in order, and every row from there on is all zeros. *)
Lemma fail_fast_if_items_read_as_vectors h k done h_k batch h_fail :
  self h = configured mv limit D retries d f vb0 ->
  limit < Z.of_nat N ->
  chunks limit texts !! k = Some batch ->
  served provider (take k (chunks limit texts)) h = Some (done, h_k) ->
  Embedding.get_embeddings_with_backoff provider (Seq batch) false h_k
  = (Return None, h_fail) ->
  Embedding.sequence provider asarray texts h
  = (Return (PyArray ((values <$> concat done)
                        ++ replicate (N - k * L) zrow)), h_fail)
  /\ length (concat done) = (k * L)%nat
  /\ (k * L < N)%nat
  /\ length ((values <$> concat done) ++ replicate (N - k * L) zrow) = N
  /\ Forall (fun row : list float => length row = Z.to_nat D)
       ((values <$> concat done) ++ replicate (N - k * L) zrow).
Proof.
  intros Hself Hn Hk Hserved Hfail.
  destruct (chunks_lookup k batch Hk) as (-> & Hlt & HkN).
  rewrite (chunks_take_drop limit texts Hlimit) in Hserved.
  rewrite <- fmap_take, take_seq in Hserved.
  rewrite Nat.min_l in Hserved by lia.
  assert (Hlen : length (concat done) = (k * L)%nat).
  { rewrite (length_concat_Forall2 _ _ (served_shapes _ _ _ _ Hserved)).
    apply length_concat_cuts. lia. }
  split; [|split; [exact Hlen|split; [exact HkN|split]]].
  - rewrite (sequence_large h Hself Hn). unfold bind.
    rewrite chunk_starts_seq.
    replace (Z.to_nat ((Z.of_nat N - 0 + limit - 1) / limit))
      with (k + S (Z.to_nat ((Z.of_nat N - 0 + limit - 1) / limit) - S k))%nat
      by lia.
    rewrite seq_app, fmap_app. cbn [seq fmap list_fmap].
    assert (Hin : forall j, (0 <= j <= 0 + k)%nat -> (j * L < N)%nat).
    { intros j Hj. eapply chunk_count_tight; [exact Hlimit | lia]. }
    pose proof (chunk_loop_fail_fast k 0 [] h done h_k h_fail
                  (start <$> seq (S (0 + k))
                     (Z.to_nat ((Z.of_nat N - 0 + limit - 1) / limit) - S k))
                  Hself eq_refl Hin Hserved Hfail) as Hloop.
    rewrite Nat.mul_0_l, Nat.sub_0_r in Hloop.
    match goal with
    | |- context [Embedding.chunk_loop ?p ?np ?t ?a ?st ?hh] =>
        replace (Embedding.chunk_loop p np t a st hh)
          with (Return ([] ++ (values <$> concat done)
                          ++ replicate (N - (0 + k) * L) zrow), h_fail)
          by (symmetry; exact Hloop)
    end.
    reflexivity.
  - rewrite length_app, length_fmap, length_replicate, Hlen. lia.
  - apply Forall_app. split.
    + eapply served_widths. exact Hserved.
    + apply Forall_replicate. apply length_replicate.
Qed.

Lemma fmap_concat_list {A B} (g : A -> B) (ls : list (list A)) :
  g <$> concat ls = concat (fmap (M:=list) g <$> ls).
Proof.
  induction ls as [|x ls IH]; [reflexivity|].
  cbn [concat fmap list_fmap]. rewrite fmap_app, IH. reflexivity.
Qed.

Lemma concat_block {A} (Ln : nat) : forall (ds : list (list A)) i e,
  ds !! i = Some e ->
  (forall j x, (j < i)%nat -> ds !! j = Some x -> length x = Ln) ->
  take (length e) (drop (i * Ln) (concat ds)) = e.
Proof.
  induction ds as [|x ds IH]; intros i e Hi Hfull; [discriminate Hi|].
  destruct i as [|i].
  - injection Hi as ->. cbn. rewrite drop_0, take_app_length. reflexivity.
  - cbn [concat]. cbn in Hi.
    assert (Hx : length x = Ln) by (apply (Hfull 0%nat); [lia | reflexivity]).
    replace (S i * Ln)%nat with (length x + i * Ln)%nat by lia.
    rewrite drop_app_add. apply IH; [exact Hi|].
    intros j y Hj Hy. apply (Hfull (S j)); [lia | exact Hy].
Qed.


Lemma backoff_first_try input_data vb h items :
  self h = configured mv limit D retries d f vb0 ->
  1 <= retries ->
  provider (ncalls h) (Embedding.as_batch input_data) = Return items ->
  Embedding.get_embeddings_with_backoff provider input_data vb h
  = (Return (Some items), log_request (Embedding.as_batch input_data) h).
Proof.
  intros Hself Hr Hok.
  unfold Embedding.get_embeddings_with_backoff, bind at 1, getattr.
  rewrite Hself. cbn [api_retry_limit configured]. cbv zeta.
  unfold range. replace (Z.to_nat retries) with (S (Z.to_nat retries - 1)) by lia.
  cbn [seq fmap list_fmap Embedding.attempts]. unfold bind.
  rewrite (attempt_success _ vb _ h items mv); [reflexivity | | exact Hok].
  rewrite Hself. reflexivity.
Qed.

Lemma served_always_up (emb : string -> TextEmbedding) :
  forall (batches : list (list string)) h,
  self h = configured mv limit D retries d f vb0 ->
  1 <= retries ->
  (forall k (batch : list string),
     provider k batch = Return (fmap (M:=list) emb batch)) ->
  exists h_end,
    served provider batches h
    = Some (fmap (M:=list) (fmap (M:=list) emb) batches, h_end)
    /\ requests (world h_end) = requests (world h) ++ batches
    /\ slept (world h_end) = slept (world h).
Proof.
  induction batches as [|batch batches IH]; intros h Hself Hr Hup.
  - exists h. cbn. rewrite app_nil_r. auto.
  - destruct (IH (log_request batch h) Hself Hr Hup) as (h_end & Hs & Hreq & Hsl).
    exists h_end. split; [|split].
    + cbn [served fmap list_fmap].
      rewrite (backoff_first_try (Seq batch) false h (emb <$> batch) Hself Hr)
        by apply Hup.
      cbn [Embedding.as_batch]. rewrite Hs. reflexivity.
    + rewrite Hreq. cbn. rewrite <- app_assoc. reflexivity.
    + rewrite Hsl. reflexivity.
Qed.

(** With a numpy that reads an item as its vector ([Hnp]), and more
    strings than the request limit: the slices
    [texts[i*limit : i*limit + limit]] taken in order give the input back
    when put end to end (nothing left out, nothing twice), each holds
    between 1 and [limit] strings, and every one but the last holds
    exactly [limit].  When the primitive answers for every one of them,
    the array is the answers' vectors end to end, so the rows from the
    offset of chunk [i] on are the vectors of chunk [i]'s answer, in its
    order; with a provider that answers each string by itself, row [j] is
    the vector of string [j], and the requests sent are the chunks, in
    order. *)
Lemma chunks_in_order_if_items_read_as_vectors h :
  self h = configured mv limit D retries d f vb0 ->
  limit < Z.of_nat N ->
  concat (chunks limit texts) = texts
  /\ (forall i batch,
        chunks limit texts !! i = Some batch ->
        batch = slice texts (Z.of_nat i * limit) (Z.of_nat i * limit + limit)
        /\ (1 <= length batch <= L)%nat
        /\ (S i < length (chunks limit texts) -> length batch = L)%nat)
  /\ (forall done h_end,
        served provider (chunks limit texts) h = Some (done, h_end) ->
        Embedding.sequence provider asarray texts h
        = (Return (PyArray (values <$> concat done)), h_end)
        /\ length (concat done) = N
        /\ Forall (fun row : list float => length row = Z.to_nat D)
             (values <$> concat done)
        /\ forall i embed,
             done !! i = Some embed ->
             take (length embed) (drop (i * L) (values <$> concat done))
             = values <$> embed)
  /\ (forall emb : string -> TextEmbedding,
        1 <= retries ->
        (forall k (batch : list string),
           provider k batch = Return (fmap (M:=list) emb batch)) ->
        exists h_end,
          Embedding.sequence provider asarray texts h
          = (Return (PyArray ((fun s => values (emb s)) <$> texts)), h_end)
          /\ requests (world h_end)
             = requests (world h) ++ chunks limit texts
          /\ slept (world h_end) = slept (world h)).
Proof.
  intros Hself Hn.
  set (c := Z.to_nat ((Z.of_nat N - 0 + limit - 1) / limit)).
  assert (Hcover : (N <= c * L)%nat) by (apply chunk_count_covers; exact Hlimit).
  assert (Hcat : concat (chunks limit texts) = texts).
  { rewrite (chunks_take_drop limit texts Hlimit). apply concat_cuts.
    exact Hcover. }
  assert (Hcount : length (chunks limit texts) = c).
  { rewrite (chunks_take_drop limit texts Hlimit), length_fmap, length_seq.
    reflexivity. }
  assert (Hall : forall done h_end,
            served provider (chunks limit texts) h = Some (done, h_end) ->
            Embedding.sequence provider asarray texts h
            = (Return (PyArray (values <$> concat done)), h_end)
            /\ length (concat done) = N
            /\ Forall2 (fun (batch : list string) (embed : list TextEmbedding) =>
                          length embed = length batch)
                 (chunks limit texts) done).
  { intros done h_end Hserved.
    pose proof (served_shapes _ _ _ _ Hserved) as Hshapes.
    assert (Hlen : length (concat done) = N).
    { rewrite (length_concat_Forall2 _ _ Hshapes), Hcat. reflexivity. }
    split; [|split; [exact Hlen | exact Hshapes]].
    rewrite (chunks_take_drop limit texts Hlimit) in Hserved. fold c in Hserved.
    assert (Hin : forall j, (0 <= j < 0 + c)%nat -> (j * L < N)%nat).
    { intros j Hj. eapply chunk_count_tight; [exact Hlimit | fold c; lia]. }
    pose proof (chunk_loop_complete c 0 [] h done h_end Hself eq_refl Hin
                  Hserved) as Hloop.
    rewrite Nat.mul_0_l, Nat.sub_0_r in Hloop. cbn [app] in Hloop.
    rewrite (sequence_large h Hself Hn). unfold bind.
    rewrite chunk_starts_seq. fold c. rewrite Hloop.
    replace (N - (0 + c) * L)%nat with 0%nat by lia.
    cbn [replicate app]. rewrite app_nil_r. reflexivity. }
  split; [exact Hcat|]. split; [|split].
  - intros i batch Hi.
    destruct (chunks_lookup i batch Hi) as (-> & Hlt & HiN). split; [|split].
    + pose proof (slice_take_drop texts limit i Hlimit) as E.
      rewrite !Z.add_0_l in E. symmetry. exact E.
    + rewrite length_take, length_drop. lia.
    + rewrite Hcount. intros Hnext.
      assert ((S i * L < N)%nat)
        by (eapply chunk_count_tight; [exact Hlimit | fold c; lia]).
      rewrite length_take, length_drop. lia.
  - intros done h_end Hserved.
    destruct (Hall done h_end Hserved) as (Hrun & Hlen & Hshapes).
    split; [exact Hrun|]. split; [exact Hlen|].
    split; [eapply served_widths; exact Hserved|].
    intros i embed Hi.
    rewrite <- fmap_drop, <- fmap_take. f_equal.
    apply concat_block; [exact Hi|].
    intros j x Hj Hx.
    destruct (Forall2_lookup_r _ _ _ _ _ Hshapes Hx) as (batch & Hb & Hbx).
    rewrite Hbx.
    destruct (chunks_lookup j batch Hb) as (-> & Hlt & _).
    assert (j < length done)%nat by (eapply lookup_lt_Some; exact Hx).
    assert (i < length done)%nat by (eapply lookup_lt_Some; exact Hi).
    pose proof (Forall2_length _ _ _ Hshapes) as Hl2. rewrite Hcount in Hl2.
    assert ((S j * L < N)%nat)
      by (eapply chunk_count_tight; [exact Hlimit | fold c; lia]).
    rewrite length_take, length_drop. lia.
  - intros emb Hr Hup.
    destruct (served_always_up emb (chunks limit texts) h Hself Hr Hup)
      as (h_end & Hserved & Hreq & Hsl).
    exists h_end. split; [|split; [exact Hreq | exact Hsl]].
    destruct (Hall _ _ Hserved) as (Hrun & _).
    rewrite Hrun. f_equal. f_equal.
    rewrite <- (fmap_concat_list emb), Hcat, <- list_fmap_compose. reflexivity.
Qed.

End ChunkLoop.

(** *** The claims on the short branch of [sequence] and on [_sequence] *)

(** C1.  What the code does where the claim has [sequence] give an
    (N, D) array for every N: with no more strings than the request limit
    and a provider that answers every request, each string by itself,
    [sequence] hands back the provider's own list of items, which is no
    array; its entry [i] is the item whose [values] is the vector that
    [string] gives for string [i]. *)
Theorem sequence_small_gives_items texts h mv limit D retries d f vb0
    (emb : string -> TextEmbedding) :
  self h = configured mv limit D retries d f vb0 ->
  1 <= retries ->
  Z.of_nat (length texts) <= limit ->
  (forall k (batch : list string),
     provider k batch = Return (fmap (M:=list) emb batch)) ->
  (Embedding.sequence provider asarray texts h).1
  = Return (PyList (emb <$> texts))
  /\ (forall a, (Embedding.sequence provider asarray texts h).1
                <> Return (PyArray a))
  /\ (forall i s h',
        texts !! i = Some s ->
        self h' = self h ->
        (Embedding.string provider s h').1 = Return (values (emb s))).
Proof.
  intros Hself Hr Hn Hup.
  assert (Hrun : (Embedding.sequence provider asarray texts h).1
                 = Return (PyList (emb <$> texts))).
  { unfold Embedding.sequence. cbv zeta. unfold bind at 1, getattr.
    rewrite Hself. cbn [api_request_limit configured].
    destruct (Z.leb_spec (Z.of_nat (length texts)) limit) as [_|?]; [|lia].
    unfold bind.
    rewrite (backoff_first_try mv limit D retries d f vb0 (Seq texts) false h
               (emb <$> texts) Hself Hr) by apply Hup.
    reflexivity. }
  split; [exact Hrun|]. split.
  - intros a. rewrite Hrun. discriminate.
  - intros i s h' _ Hself'. rewrite Hself in Hself'.
    unfold Embedding.string, bind.
    rewrite (backoff_first_try mv limit D retries d f vb0 (Str s) false h'
               (emb <$> [s]) Hself' Hr) by apply Hup.
    reflexivity.
Qed.

(** C5.  What the code does where the claim has a failed call always
    give an array: with no more strings than the request limit, when
    every one of the [retry_limit] requests fails, [sequence] gives
    [None], not an array of zero rows. *)
Theorem sequence_small_gives_None texts h mv limit D retries d f vb0 :
  self h = configured mv limit D retries d f vb0 ->
  0 <= d -> 0 <= f ->
  Z.of_nat (length texts) <= limit ->
  (forall j, (j < Z.to_nat retries)%nat ->
     fails_at provider (ncalls h + j) texts) ->
  (Embedding.sequence provider asarray texts h).1 = Return PyNone.
Proof.
  intros Hself Hd0 Hf0 Hn Hfail.
  destruct (backoff_all_fail (Seq texts) false h mv d f retries)
    as (h' & Hrun & _); try (rewrite Hself; reflexivity); try assumption.
  unfold Embedding.sequence. cbv zeta. unfold bind at 1, getattr.
  rewrite Hself. cbn [api_request_limit configured].
  destruct (Z.leb_spec (Z.of_nat (length texts)) limit) as [_|?]; [|lia].
  unfold bind. rewrite Hrun. reflexivity.
Qed.

(** C9, as amended.  [_sequence] is not the retry primitive: whatever
    the provider does it sends exactly [retry_limit] requests and never
    sleeps; a failure is dropped and leaves the variable [embed] as it
    was, so what [_sequence] gives is the vectors of the last request that
    was answered, also when later requests failed; and when every request
    fails it raises the [TypeError] of iterating over [None].  The
    primitive, on an answer to its first request, stops after that one
    request, and when every request fails gives [None] after sleeping. *)
Theorem duplicate_retry_is_not_the_primitive texts h mv limit D retries d f vb0 :
  self h = configured mv limit D retries d f vb0 ->
  0 <= d -> 0 <= f ->
  let run := Embedding._sequence provider texts h in
  let prim := Embedding.get_embeddings_with_backoff provider (Seq texts) false h in
  requests (world run.2)
  = requests (world h) ++ replicate (Z.to_nat retries) texts
  /\ slept (world run.2) = slept (world h)
  /\ (forall i items,
        (i < Z.to_nat retries)%nat ->
        provider (ncalls h + i) texts = Return items ->
        (forall j, (i < j < Z.to_nat retries)%nat ->
           fails_at provider (ncalls h + j) texts) ->
        run.1 = Return (values <$> items))
  /\ ((forall j, (j < Z.to_nat retries)%nat ->
         fails_at provider (ncalls h + j) texts) ->
      run.1 = Raise (TypeError "'NoneType' object is not iterable")
      /\ prim.1 = Return None
      /\ slept (world prim.2)
         = slept (world h) ++ (delay_of d f <$> range retries))
  /\ (forall items,
        1 <= retries ->
        provider (ncalls h) texts = Return items ->
        prim.1 = Return (Some items)
        /\ requests (world prim.2) = requests (world h) ++ [texts]).
Proof.
  intros Hself Hd0 Hf0 run prim.
  assert (Hm : model (self h) = Some mv) by (rewrite Hself; reflexivity).
  assert (Hr : api_retry_limit (self h) = Some retries)
    by (rewrite Hself; reflexivity).
  subst run. rewrite (_sequence_run texts h mv retries Hm Hr). cbn [fst snd].
  split; [reflexivity|]. split; [reflexivity|]. split; [|split].
  - intros i items Hi Hok Hfail.
    rewrite (last_answer_last_success texts (Z.to_nat retries) (ncalls h)
               None i items Hi Hok Hfail).
    reflexivity.
  - intros Hfail.
    rewrite (last_answer_all_fail texts (Z.to_nat retries) (ncalls h) None Hfail).
    split; [reflexivity|].
    destruct (backoff_all_fail (Seq texts) false h mv d f retries)
      as (h' & Hrun & _ & _ & Hsl & _);
      try (rewrite Hself; reflexivity); try assumption.
    subst prim. rewrite Hrun. split; [reflexivity | exact Hsl].
  - intros items Hr1 Hok. subst prim.
    rewrite (backoff_first_try mv limit D retries d f vb0 (Seq texts) false h
               items Hself Hr1 Hok).
    split; reflexivity.
Qed.

End Proofs.

(** ** The row assignment of [sequence] *)

Section RowAssignment.

Variable provider : nat -> list string -> outcome (list TextEmbedding).
Variable asarray : TextEmbedding -> outcome (list float).

(** The long branch of [sequence] up to the result of the primitive for
    the first chunk, [texts[0 : limit]]. *)
Lemma sequence_first_chunk texts h mv limit D retries d f vb0 :
  self h = configured mv limit D retries d f vb0 ->
  0 < limit < Z.of_nat (length texts) ->
  0 <= D ->
  exists starts,
    Embedding.sequence provider asarray texts h
    = (a <- (embed <- Embedding.get_embeddings_with_backoff provider
                        (Seq (take (Z.to_nat limit) texts)) false ;;
             match embed with
             | None =>
                 ret (replicate (length texts) (replicate (Z.to_nat D) zero))
             | Some embed =>
                 a <- Embedding.write_rows asarray
                        (replicate (length texts) (replicate (Z.to_nat D) zero))
                        embed
                        ((fun iy => (iy, Z.of_nat 0 + Z.of_nat iy))
                           <$> seq 0 (Z.to_nat limit)) ;;
                 Embedding.chunk_loop provider asarray texts a starts
             end) ;;
       ret (PyArray a)) h.
Proof.
  intros Hself [Hpos Hn] HD.
  exists ((fun i : nat => 0 + Z.of_nat i * limit) <$>
            seq 1 (Z.to_nat ((Z.of_nat (length texts) - 0 + limit - 1) / limit) - 1)).
  rewrite (sequence_large provider asarray texts mv limit D retries d f vb0
             Hpos HD h Hself Hn).
  rewrite chunk_starts_seq.
  assert (Hc : (0 < Z.to_nat ((Z.of_nat (length texts) - 0 + limit - 1) / limit))%nat).
  { pose proof (chunk_count_covers limit (length texts) Hpos). nia. }
  destruct (Z.to_nat ((Z.of_nat (length texts) - 0 + limit - 1) / limit))
    as [|c]; [lia|].
  cbn [seq fmap list_fmap Embedding.chunk_loop Nat.sub]. rewrite Nat.sub_0_r.
  unfold bind at 1 2 6, getattr.
  rewrite Hself. cbn [api_request_limit configured]. cbv zeta.
  rewrite (slice_take_drop texts limit 0 Hpos). cbn [Nat.mul]. rewrite drop_0.
  assert (Hlen : length (take (Z.to_nat limit) texts) = Z.to_nat limit).
  { rewrite length_take. lia. }
  rewrite Hlen.
  replace (0 + Z.of_nat 0 * limit) with (Z.of_nat 0) by lia.
  rewrite enumerate_range2. reflexivity.
Qed.

Lemma first_chunk_none texts h mv limit D retries d f vb0 h_fail :
  self h = configured mv limit D retries d f vb0 ->
  0 < limit < Z.of_nat (length texts) ->
  0 <= D ->
  Embedding.get_embeddings_with_backoff provider
    (Seq (take (Z.to_nat limit) texts)) false h = (Return None, h_fail) ->
  Embedding.sequence provider asarray texts h
  = (Return (PyArray (replicate (length texts)
                        (replicate (Z.to_nat D) zero))), h_fail).
Proof.
  intros Hself Hl HD Hrun.
  destruct (sequence_first_chunk texts h mv limit D retries d f vb0 Hself Hl HD)
    as [starts ->].
  unfold bind. rewrite Hrun. reflexivity.
Qed.

Lemma first_write_raises texts h mv limit D retries d f vb0 item embed e h1 :
  self h = configured mv limit D retries d f vb0 ->
  0 < limit < Z.of_nat (length texts) ->
  0 <= D ->
  Embedding.get_embeddings_with_backoff provider
    (Seq (take (Z.to_nat limit) texts)) false h
  = (Return (Some (item :: embed)), h1) ->
  asarray item = Raise e ->
  Embedding.sequence provider asarray texts h = (Raise e, h1).
Proof.
  intros Hself Hl HD Hrun Hbad.
  destruct (sequence_first_chunk texts h mv limit D retries d f vb0 Hself Hl HD)
    as [starts ->].
  unfold bind at 1 2. rewrite Hrun. cbn beta iota.
  replace (Z.to_nat limit) with (S (Z.to_nat limit - 1)) by lia.
  cbn [seq fmap list_fmap Embedding.write_rows]. unfold bind at 1 2 3, getitem.
  cbn [lookup list_lookup]. unfold ret at 1.
  unfold Embedding.np_setitem. cbv zeta. rewrite length_replicate.
  change (Z.of_nat 0 + Z.of_nat 0) with 0. change (0 <? 0) with false.
  cbn beta iota.
  destruct (Z.leb_spec (Z.of_nat (length texts)) 0) as [?|_]; [lia|].
  cbn [orb]. unfold bind at 1, Embedding.lift. rewrite Hbad. reflexivity.
Qed.

Lemma first_answer_empty texts h mv limit D retries d f vb0 h1 :
  self h = configured mv limit D retries d f vb0 ->
  0 < limit < Z.of_nat (length texts) ->
  0 <= D ->
  Embedding.get_embeddings_with_backoff provider
    (Seq (take (Z.to_nat limit) texts)) false h = (Return (Some []), h1) ->
  Embedding.sequence provider asarray texts h
  = (Raise (IndexError "list index out of range"), h1).
Proof.
  intros Hself Hl HD Hrun.
  destruct (sequence_first_chunk texts h mv limit D retries d f vb0 Hself Hl HD)
    as [starts ->].
  unfold bind at 1 2. rewrite Hrun. cbn beta iota.
  replace (Z.to_nat limit) with (S (Z.to_nat limit - 1)) by lia.
  reflexivity.
Qed.

(** C4.  What the code does where the claim has [sequence] keep the rows
    of the chunks done: the loop assigns the provider's item itself to the
    row ([a[j] = embed[iy]], where [string] and [_sequence] take
    [.values]), so with a numpy that cannot read such an item the first
    answer is never stored.  When the primitive gives [None] for the first
    chunk (k = 0), [sequence] does return the array of zeros, at once and
    without raising, whatever numpy does.  When it has answered the chunks
    before chunk k, k >= 1, [sequence] does not get as far as chunk k: it
    raises numpy's error on the first row of the first chunk, having sent
    requests for the first chunk only (at most [api_retry_limit] of them),
    and returns no array. *)
Theorem fail_fast_is_reached_only_at_the_first_chunk texts h mv limit D
    retries d f vb0 e :
  self h = configured mv limit D retries d f vb0 ->
  0 < limit < Z.of_nat (length texts) ->
  0 <= D ->
  well_shaped provider D ->
  (forall item, asarray item = Raise e) ->
  (forall h_fail,
     Embedding.get_embeddings_with_backoff provider
       (Seq (take (Z.to_nat limit) texts)) false h = (Return None, h_fail) ->
     Embedding.sequence provider asarray texts h
     = (Return (PyArray (replicate (length texts)
                           (replicate (Z.to_nat D) zero))), h_fail))
  /\ (forall k done h_k batch h_fail,
        (1 <= k)%nat ->
        chunks limit texts !! k = Some batch ->
        served provider (take k (chunks limit texts)) h = Some (done, h_k) ->
        Embedding.get_embeddings_with_backoff provider (Seq batch) false h_k
        = (Return None, h_fail) ->
        exists h1 j,
          Embedding.sequence provider asarray texts h = (Raise e, h1)
          /\ (j <= Z.to_nat retries)%nat
          /\ requests (world h1)
             = requests (world h)
                 ++ replicate j (take (Z.to_nat limit) texts)
          /\ (forall a h', Embedding.sequence provider asarray texts h
                           <> (Return (PyArray a), h'))).
Proof.
  intros Hself Hl HD Hshape Hbad. split.
  - intros h_fail Hrun.
    apply (first_chunk_none texts h mv limit D retries d f vb0 h_fail
             Hself Hl HD Hrun).
  - intros k done h_k batch h_fail Hk Hbatch Hserved _.
    destruct Hl as [Hpos Hn].
    rewrite (chunks_take_drop limit texts Hpos) in Hserved.
    assert (Hc : (0 < Z.to_nat ((Z.of_nat (length texts) - 0 + limit - 1) / limit))%nat).
    { pose proof (chunk_count_covers limit (length texts) Hpos). nia. }
    destruct (Z.to_nat ((Z.of_nat (length texts) - 0 + limit - 1) / limit))
      as [|c]; [lia|].
    destruct k as [|k]; [lia|].
    cbn [seq fmap list_fmap take served Nat.mul] in Hserved.
    rewrite drop_0 in Hserved.
    destruct (Embedding.get_embeddings_with_backoff provider
                (Seq (take (Z.to_nat limit) texts)) false h)
      as [[[embed|]|e'] h1] eqn:Hrun; try discriminate Hserved.
    destruct (backoff_answer provider _ _ _ _ _ Hrun) as [i Hi].
    destruct (Hshape _ _ _ Hi) as [Hlen _]. cbn [Embedding.as_batch] in Hlen.
    rewrite length_take in Hlen.
    destruct embed as [|item embed]; [cbn in Hlen; lia|].
    destruct (sends_get_embeddings_with_backoff provider
                (Seq (take (Z.to_nat limit) texts)) false retries h)
      as (j & Hj & Hreq); [rewrite Hself; reflexivity|].
    rewrite Hrun in Hreq. cbn [snd Embedding.as_batch] in Hreq.
    pose proof (first_write_raises texts h mv limit D retries d f vb0 item
                  embed e h1 Hself (conj Hpos Hn) HD Hrun (Hbad item)) as Hseq.
    exists h1, j. split; [exact Hseq|]. split; [exact Hj|].
    split; [exact Hreq|].
    intros a h'. rewrite Hseq. discriminate.
Qed.

(** C6.  What the code does where the claim has each returned vector
    written to its row: [a[j] = embed[iy]] assigns the provider's item
    itself, not its [values]; with a numpy that cannot read such an item,
    as soon as the primitive has answered for the first chunk, [sequence]
    raises numpy's error on that chunk's first row.  No vector is written,
    and the only requests sent are for the first chunk, which is shorter
    than the input: the strings after it are never cut into chunks or
    sent. *)
Theorem first_answer_is_never_written texts h mv limit D retries d f vb0
    item embed e h1 :
  self h = configured mv limit D retries d f vb0 ->
  0 < limit < Z.of_nat (length texts) ->
  0 <= D ->
  Embedding.get_embeddings_with_backoff provider
    (Seq (take (Z.to_nat limit) texts)) false h
  = (Return (Some (item :: embed)), h1) ->
  asarray item = Raise e ->
  Embedding.sequence provider asarray texts h = (Raise e, h1)
  /\ (exists j,
        (j <= Z.to_nat retries)%nat
        /\ requests (world h1)
           = requests (world h) ++ replicate j (take (Z.to_nat limit) texts))
  /\ (length (take (Z.to_nat limit) texts) < length texts)%nat
  /\ chunks limit texts !! 0%nat = Some (take (Z.to_nat limit) texts)
  /\ (1 < length (chunks limit texts))%nat.
Proof.
  intros Hself Hl HD Hrun Hbad.
  split; [|split; [|split; [|split]]].
  - apply (first_write_raises texts h mv limit D retries d f vb0 item embed e
             h1 Hself Hl HD Hrun Hbad).
  - destruct (sends_get_embeddings_with_backoff provider
                (Seq (take (Z.to_nat limit) texts)) false retries h)
      as (j & Hj & Hreq); [rewrite Hself; reflexivity|].
    rewrite Hrun in Hreq. exists j. split; [exact Hj | exact Hreq].
  - rewrite length_take. lia.
  - destruct Hl as [Hpos Hn].
    rewrite (chunks_take_drop limit texts Hpos), list_lookup_fmap.
    assert (Hc : (0 < Z.to_nat ((Z.of_nat (length texts) - 0 + limit - 1) / limit))%nat).
    { pose proof (chunk_count_covers limit (length texts) Hpos). nia. }
    rewrite lookup_seq_lt by exact Hc. cbn. rewrite drop_0. reflexivity.
  - destruct Hl as [Hpos Hn].
    rewrite (chunks_take_drop limit texts Hpos), length_fmap, length_seq.
    pose proof (chunk_count_covers limit (length texts) Hpos). nia.
Qed.

End RowAssignment.

(** ** The development at work on concrete providers *)

Lemma well_shaped_always_up : well_shaped always_up 2.
Proof.
  intros k batch items E. injection E as <-.
  split; [apply length_fmap|]. apply Forall_fmap, Forall_true. reflexivity.
Qed.

Lemma well_shaped_always_down : well_shaped always_down 2.
Proof. intros k batch items E. discriminate E. Qed.

Lemma well_shaped_up_until n : well_shaped (up_until n) 2.
Proof.
  intros k batch items. unfold up_until. destruct (k <? n)%nat.
  - apply well_shaped_always_up.
  - apply well_shaped_always_down.
Qed.

Lemma well_shaped_down_until n : well_shaped (down_until n) 2.
Proof.
  intros k batch items. unfold down_until. destruct (k <? n)%nat.
  - apply well_shaped_always_down.
  - apply well_shaped_always_up.
Qed.

Lemma by_values_reads_values item : by_values item = Return (values item).
Proof. reflexivity. Qed.

(** The retry primitive against a provider that fails once and then
    answers: two requests, the second one's answer. *)
Lemma backoff_request_budget_witness :
  let run := Embedding.get_embeddings_with_backoff (down_until 1)
               (Seq ["alpha"]) false (demo_heap 5 3) in
  run.1 = Return (Some [demo_embed "alpha"])
  /\ requests (world run.2) = [["alpha"]; ["alpha"]].
Proof.
  destruct (backoff_request_budget (down_until 1) (Seq ["alpha"]) false
              (demo_heap 5 3) _ 5 2 3 1 2 false eq_refl
              ltac:(lia) ltac:(lia) ltac:(lia)) as (_ & Hfirst & _).
  apply (Hfirst 1%nat [demo_embed "alpha"]).
  - lia.
  - intros j Hj. exists (ProviderError "503 service unavailable").
    destruct j as [|j]; [reflexivity | lia].
  - reflexivity.
Defined.

(** The scenario of the spec: two attempts, base delay 1, factor 2, every
    request failing: sleeps of 1 and then 2 seconds, the second one after
    the last attempt. *)
Lemma backoff_sleeps_after_every_failure_witness :
  let run := Embedding.get_embeddings_with_backoff always_down
               (Seq ["ccc"; "dddd"]) false (demo_heap 2 2) in
  run.1 = Return None
  /\ slept (world run.2) = [1; 2]
  /\ last (slept (world run.2)) = Some 2.
Proof.
  destruct (backoff_sleeps_after_every_failure always_down
              (Seq ["ccc"; "dddd"]) false (demo_heap 2 2) _ 2 2 2 1 2 false
              eq_refl ltac:(lia) ltac:(lia) ltac:(lia))
    as (Hnone & Hslept & _ & Hlast).
  - intros j _. exists (ProviderError "503 service unavailable"). reflexivity.
  - split; [exact Hnone|]. split; [exact Hslept | exact Hlast].
Defined.

Lemma string_fails_iff_exhausted_witness :
  (Embedding.string (down_until 2) "alpha" (demo_heap 5 3)).1
  = Return (values (demo_embed "alpha")).
Proof.
  destruct (string_fails_iff_exhausted (down_until 2) "alpha" (demo_heap 5 3)
              _ 5 2 3 1 2 false eq_refl ltac:(lia) ltac:(lia)
              (well_shaped_down_until 2)) as (_ & _ & Hfirst).
  destruct (Hfirst 2%nat [demo_embed "alpha"]) as (item & Hitem & Hrun).
  - cbn. lia.
  - intros j Hj. exists (ProviderError "503 service unavailable").
    destruct j as [|[|j]]; [reflexivity | reflexivity | lia].
  - reflexivity.
  - injection Hitem as <-. exact Hrun.
Defined.

(** The scenario of the spec with a numpy that reads an item as its
    vector: the first chunk answered, every request after it failing. *)
Lemma fail_fast_if_items_read_as_vectors_example :
  (Embedding.sequence (up_until 1) by_values ["a"; "bb"; "ccc"; "dddd"]
     (demo_heap 2 2)).1
  = Return (PyArray [values (demo_embed "a"); values (demo_embed "bb");
                     [zero; zero]; [zero; zero]]).
Proof.
  destruct (fail_fast_if_items_read_as_vectors (up_until 1) by_values
              ["a"; "bb"; "ccc"; "dddd"] "textembedding-gecko@001" 2 2 2 1 2 false
              eq_refl ltac:(lia) (well_shaped_up_until 1) by_values_reads_values
              (demo_heap 2 2) 1%nat
              [[demo_embed "a"; demo_embed "bb"]]
              (log_request ["a"; "bb"] (demo_heap 2 2))
              ["ccc"; "dddd"]
              (Embedding.get_embeddings_with_backoff (up_until 1)
                 (Seq ["ccc"; "dddd"]) false
                 (log_request ["a"; "bb"] (demo_heap 2 2))).2
              eq_refl eq_refl eq_refl eq_refl eq_refl) as (Hrun & _).
  rewrite Hrun. reflexivity.
Qed.

Lemma chunks_in_order_if_items_read_as_vectors_example :
  concat (chunks 2 ["a"; "bb"; "ccc"]) = ["a"; "bb"; "ccc"]
  /\ exists h_end,
       Embedding.sequence always_up by_values ["a"; "bb"; "ccc"] (demo_heap 2 1)
       = (Return (PyArray [values (demo_embed "a"); values (demo_embed "bb");
                           values (demo_embed "ccc")]), h_end)
       /\ requests (world h_end) = [["a"; "bb"]; ["ccc"]].
Proof.
  destruct (chunks_in_order_if_items_read_as_vectors always_up by_values
              ["a"; "bb"; "ccc"] "textembedding-gecko@001" 2 2 1 1 2 false
              eq_refl ltac:(lia) well_shaped_always_up by_values_reads_values
              (demo_heap 2 1) eq_refl eq_refl) as (Hcat & _ & _ & Hup).
  split; [exact Hcat|].
  destruct (Hup demo_embed ltac:(lia) (fun _ _ => eq_refl))
    as (h_end & Hrun & Hreq & _).
  exists h_end. split; [exact Hrun | exact Hreq].
Qed.

(** The same scenario with a numpy that raises on the item: [sequence]
    raises on the first row, before the failing chunk is ever sent; with
    every request failing it returns the zeros. *)
Lemma fail_fast_is_reached_only_at_the_first_chunk_witness :
  (Embedding.sequence (up_until 1) unreadable ["a"; "bb"; "ccc"; "dddd"]
     (demo_heap 2 2)).1
  = Raise (TypeError "float() argument must be a string or a real number")
  /\ (Embedding.sequence always_down unreadable ["a"; "bb"; "ccc"; "dddd"]
        (demo_heap 2 2)).1
     = Return (PyArray [[zero; zero]; [zero; zero]; [zero; zero]; [zero; zero]]).
Proof.
  split.
  - destruct (fail_fast_is_reached_only_at_the_first_chunk (up_until 1)
                unreadable ["a"; "bb"; "ccc"; "dddd"] (demo_heap 2 2)
                "textembedding-gecko@001" 2 2 2 1 2 false
                (TypeError "float() argument must be a string or a real number")
                eq_refl ltac:(cbn; lia) ltac:(lia) (well_shaped_up_until 1)
                (fun _ => eq_refl)) as [_ Hlater].
    destruct (Hlater 1%nat [[demo_embed "a"; demo_embed "bb"]]
                (log_request ["a"; "bb"] (demo_heap 2 2)) ["ccc"; "dddd"]
                (Embedding.get_embeddings_with_backoff (up_until 1)
                   (Seq ["ccc"; "dddd"]) false
                   (log_request ["a"; "bb"] (demo_heap 2 2))).2
                ltac:(lia) eq_refl eq_refl eq_refl)
      as (h1 & j & Hseq & _).
    rewrite Hseq. reflexivity.
  - destruct (fail_fast_is_reached_only_at_the_first_chunk always_down
                unreadable ["a"; "bb"; "ccc"; "dddd"] (demo_heap 2 2)
                "textembedding-gecko@001" 2 2 2 1 2 false
                (TypeError "float() argument must be a string or a real number")
                eq_refl ltac:(cbn; lia) ltac:(lia) well_shaped_always_down
                (fun _ => eq_refl)) as [Hfirst _].
    rewrite (Hfirst _ eq_refl). reflexivity.
Defined.

(** The other scenario of the spec (limit 2, one attempt, every request
    answered, three strings) with a numpy that raises on the item: the
    error leaves [sequence] after the request for the first two strings. *)
Lemma first_answer_is_never_written_witness :
  Embedding.sequence always_up unreadable ["a"; "bb"; "ccc"] (demo_heap 2 1)
  = (Raise (TypeError "float() argument must be a string or a real number"),
     log_request ["a"; "bb"] (demo_heap 2 1)).
Proof.
  destruct (first_answer_is_never_written always_up unreadable
              ["a"; "bb"; "ccc"] (demo_heap 2 1) "textembedding-gecko@001"
              2 2 1 1 2 false (demo_embed "a") [demo_embed "bb"]
              (TypeError "float() argument must be a string or a real number")
              (log_request ["a"; "bb"] (demo_heap 2 1))
              eq_refl ltac:(cbn; lia) ltac:(lia) eq_refl eq_refl) as [Hseq _].
  exact Hseq.
Defined.

Lemma sequence_small_gives_items_witness :
  (Embedding.sequence always_up by_values ["a"; "bb"] (demo_heap 5 5)).1
  = Return (PyList [demo_embed "a"; demo_embed "bb"]).
Proof.
  destruct (sequence_small_gives_items always_up by_values ["a"; "bb"]
              (demo_heap 5 5) _ 5 2 5 1 2 false demo_embed eq_refl
              ltac:(lia) ltac:(cbn; lia) (fun _ _ => eq_refl)) as (Hrun & _).
  exact Hrun.
Defined.

Lemma sequence_small_gives_None_witness :
  (Embedding.sequence always_down by_values ["a"] (demo_heap 5 2)).1
  = Return PyNone.
Proof.
  apply (sequence_small_gives_None always_down by_values ["a"] (demo_heap 5 2)
           _ 5 2 2 1 2 false eq_refl ltac:(lia) ltac:(lia) ltac:(cbn; lia)).
  intros j _. exists (ProviderError "503 service unavailable"). reflexivity.
Defined.

Lemma duplicate_retry_is_not_the_primitive_witness :
  (Embedding._sequence (up_until 1) ["a"] (demo_heap 5 2)).1
  = Return [values (demo_embed "a")]
  /\ requests (world (Embedding._sequence (up_until 1) ["a"] (demo_heap 5 2)).2)
     = [["a"]; ["a"]].
Proof.
  destruct (duplicate_retry_is_not_the_primitive (up_until 1) ["a"]
              (demo_heap 5 2) _ 5 2 2 1 2 false eq_refl ltac:(lia) ltac:(lia))
    as (Hreq & _ & Hlast & _).
  split; [|exact Hreq].
  apply (Hlast 0%nat [demo_embed "a"]).
  - cbn. lia.
  - reflexivity.
  - intros j Hj. exists (ProviderError "503 service unavailable").
    destruct j as [|[|j]]; [lia | reflexivity | cbn in Hj; lia].
Defined.

(** The claim as worded fails here: the last of the two requests fails,
    and [_sequence] still gives the vectors of the first. *)
Lemma duplicate_retry_keeps_an_earlier_answer :
  ~ keeps_only_last_attempt (up_until 1) ["a"] (demo_heap 5 2).
Proof.
  unfold keeps_only_last_attempt. cbn. intros [e He]. discriminate He.
Qed.

(** ** Further properties of the class *)

Section Extras.

Variable provider : nat -> list string -> outcome (list TextEmbedding).
Variable asarray : TextEmbedding -> outcome (list float).

(** *** The verbose flag *)

Lemma same_but_printed_refl h : same_but_printed h h.
Proof. repeat split. Qed.

Lemma agree_ret {A} (a : A) : agree (ret a) (ret a).
Proof. intros h1 h2 H. split; [reflexivity | exact H]. Qed.

Lemma agree_raise {A} e : agree (@raise A e) (raise e).
Proof. intros h1 h2 H. split; [reflexivity | exact H]. Qed.

Lemma agree_bind {A B} (m1 m2 : M A) (k1 k2 : A -> M B) :
  agree m1 m2 -> (forall a, agree (k1 a) (k2 a)) ->
  agree (bind m1 k1) (bind m2 k2).
Proof.
  intros Hm Hk h1 h2 H. unfold bind. destruct (Hm h1 h2 H) as [Hv Hh].
  destruct (m1 h1) as [o1 h1'], (m2 h2) as [o2 h2']. cbn [fst snd] in *.
  subst o2. destruct o1 as [a|e].
  - apply Hk. exact Hh.
  - split; [reflexivity | exact Hh].
Qed.

Lemma agree_try_except {A} (b1 b2 : M A) (k1 k2 : exn -> M A) :
  agree b1 b2 -> (forall e, agree (k1 e) (k2 e)) ->
  agree (try_except b1 k1) (try_except b2 k2).
Proof.
  intros Hm Hk h1 h2 H. unfold try_except. destruct (Hm h1 h2 H) as [Hv Hh].
  destruct (b1 h1) as [o1 h1'], (b2 h2) as [o2 h2']. cbn [fst snd] in *.
  subst o2. destruct o1 as [a|e].
  - split; [reflexivity | exact Hh].
  - apply Hk. exact Hh.
Qed.

Lemma agree_getattr {A} (field : Embedding -> option A) name :
  agree (getattr field name) (getattr field name).
Proof.
  intros h1 h2 H. unfold getattr. destruct H as (Hs & Hr & Hsl). rewrite Hs.
  destruct (field (self h2)); (split; [reflexivity | repeat split; assumption]).
Qed.

Lemma agree_sleep wait : agree (sleep wait) (sleep wait).
Proof.
  intros h1 h2 (Hs & Hr & Hsl). unfold sleep. destruct (wait <? 0).
  - split; [reflexivity | repeat split; assumption].
  - split; [reflexivity|]. repeat split; cbn; congruence.
Qed.

Lemma agree_print e wait : agree (print e wait) (ret tt).
Proof.
  intros h1 h2 (Hs & Hr & Hsl).
  split; [reflexivity | repeat split; assumption].
Qed.

Lemma agree_get_embeddings batch :
  agree (Embedding.get_embeddings provider batch)
        (Embedding.get_embeddings provider batch).
Proof.
  unfold Embedding.get_embeddings.
  apply agree_bind; [apply agree_getattr | intros _].
  intros h1 h2 (Hs & Hr & Hsl). unfold ncalls. rewrite Hr.
  split; [reflexivity|]. repeat split; cbn; congruence.
Qed.

Lemma agree_attempt batch r :
  agree (Embedding.attempt provider batch true r)
        (Embedding.attempt provider batch false r).
Proof.
  unfold Embedding.attempt. apply agree_try_except.
  - apply agree_bind; [apply agree_get_embeddings | intros a; apply agree_ret].
  - intros e.
    apply agree_bind; [apply agree_getattr | intros d].
    apply agree_bind; [apply agree_getattr | intros f].
    apply agree_bind; [apply agree_print | intros _].
    apply agree_bind; [apply agree_sleep | intros _]. apply agree_ret.
Qed.

Lemma agree_attempts batch rs :
  agree (Embedding.attempts provider batch true rs)
        (Embedding.attempts provider batch false rs).
Proof.
  induction rs as [|r rs IH]; cbn [Embedding.attempts]; [apply agree_ret|].
  apply agree_bind; [apply agree_attempt|].
  intros [embed|]; [apply agree_ret | exact IH].
Qed.

(** *** What never prints *)

Lemma silent_ret {A} (a : A) : silent (ret a).
Proof. intros h. reflexivity. Qed.

Lemma silent_raise {A} e : silent (@raise A e).
Proof. intros h. reflexivity. Qed.

Lemma silent_bind {A B} (m : M A) (k : A -> M B) :
  silent m -> (forall a, silent (k a)) -> silent (bind m k).
Proof.
  intros Hm Hk h. unfold bind. specialize (Hm h).
  destruct (m h) as [[a|e] h']; cbn [fst snd] in *.
  - rewrite Hk. exact Hm.
  - exact Hm.
Qed.

Lemma silent_try_except {A} (body : M A) (handler : exn -> M A) :
  silent body -> (forall e, silent (handler e)) ->
  silent (try_except body handler).
Proof.
  intros Hb Hh h. unfold try_except. specialize (Hb h).
  destruct (body h) as [[a|e] h']; cbn [fst snd] in *.
  - exact Hb.
  - rewrite Hh. exact Hb.
Qed.

Lemma silent_getattr {A} (field : Embedding -> option A) name :
  silent (getattr field name).
Proof. intros h. unfold getattr. destruct (field (self h)); reflexivity. Qed.

Lemma silent_sleep wait : silent (sleep wait).
Proof. intros h. unfold sleep. destruct (wait <? 0); reflexivity. Qed.

Lemma silent_lift {A} (o : outcome A) : silent (Embedding.lift o).
Proof. intros h. reflexivity. Qed.

Lemma silent_getitem {A} (xs : list A) i : silent (getitem xs i).
Proof. intros h. unfold getitem. destruct (xs !! i); reflexivity. Qed.

Lemma silent_broadcast v w : silent (broadcast v w).
Proof.
  intros h. unfold broadcast. destruct (length v =? w)%nat; [reflexivity|].
  destruct v as [|x [|y v]]; reflexivity.
Qed.

Lemma silent_np_zeros n d : silent (np_zeros n d).
Proof. intros h. unfold np_zeros. destruct (_ || _); reflexivity. Qed.

Lemma silent_range3 a b c : silent (range3 a b c).
Proof. intros h. unfold range3. destruct (c =? 0); reflexivity. Qed.

Lemma silent_get_embeddings batch :
  silent (Embedding.get_embeddings provider batch).
Proof.
  unfold Embedding.get_embeddings.
  apply silent_bind; [apply silent_getattr | intros _]. intros h. reflexivity.
Qed.

Lemma silent_attempt batch r :
  silent (Embedding.attempt provider batch false r).
Proof.
  unfold Embedding.attempt. apply silent_try_except.
  - apply silent_bind; [apply silent_get_embeddings | intros a; apply silent_ret].
  - intros e.
    apply silent_bind; [apply silent_getattr | intros d].
    apply silent_bind; [apply silent_getattr | intros f].
    apply silent_bind; [apply silent_ret | intros _].
    apply silent_bind; [apply silent_sleep | intros _]. apply silent_ret.
Qed.

Lemma silent_attempts batch rs :
  silent (Embedding.attempts provider batch false rs).
Proof.
  induction rs as [|r rs IH]; cbn [Embedding.attempts]; [apply silent_ret|].
  apply silent_bind; [apply silent_attempt|].
  intros [embed|]; [apply silent_ret | exact IH].
Qed.

Lemma silent_backoff input_data :
  silent (Embedding.get_embeddings_with_backoff provider input_data false).
Proof.
  unfold Embedding.get_embeddings_with_backoff. cbv zeta.
  apply silent_bind; [apply silent_getattr | intros r]. apply silent_attempts.
Qed.

Lemma silent_np_setitem a j item :
  silent (Embedding.np_setitem asarray a j item).
Proof.
  unfold Embedding.np_setitem. cbv zeta. destruct (_ || _); [apply silent_raise|].
  apply silent_bind; [apply silent_lift | intros v].
  apply silent_bind; [apply silent_broadcast | intros row]. apply silent_ret.
Qed.

Lemma silent_write_rows embed pairs : forall a,
  silent (Embedding.write_rows asarray a embed pairs).
Proof.
  induction pairs as [|[iy j] pairs IH]; intros a; cbn [Embedding.write_rows];
    [apply silent_ret|].
  apply silent_bind; [apply silent_getitem | intros item].
  apply silent_bind; [apply silent_np_setitem | intros a']. apply IH.
Qed.

Lemma silent_chunk_loop texts starts : forall a,
  silent (Embedding.chunk_loop provider asarray texts a starts).
Proof.
  induction starts as [|i starts IH]; intros a; cbn [Embedding.chunk_loop];
    [apply silent_ret|].
  apply silent_bind; [apply silent_getattr | intros limit]. cbv zeta.
  apply silent_bind; [apply silent_backoff | intros [embed|]];
    [|apply silent_ret].
  apply silent_bind; [apply silent_write_rows | intros a']. apply IH.
Qed.

Lemma silent__sequence_loop batch rs : forall embed,
  silent (Embedding._sequence_loop provider batch embed rs).
Proof.
  induction rs as [|r rs IH]; intros embed; cbn [Embedding._sequence_loop];
    [apply silent_ret|].
  apply silent_bind; [|intros e; apply IH].
  apply silent_try_except; [|intros _; apply silent_ret].
  apply silent_bind; [apply silent_get_embeddings | intros e; apply silent_ret].
Qed.

(** The [verbose] argument of the retry primitive is diagnostic only: with
    it or without it the primitive gives the same result or raises the same
    error, sends the same requests, sleeps the same waits and leaves the
    same instance, on every heap and for every provider; and without it
    nothing is printed. *)
Theorem verbose_is_diagnostic_only input_data h :
  let loud := Embedding.get_embeddings_with_backoff provider input_data true h in
  let calm := Embedding.get_embeddings_with_backoff provider input_data false h in
  loud.1 = calm.1
  /\ self loud.2 = self calm.2
  /\ requests (world loud.2) = requests (world calm.2)
  /\ slept (world loud.2) = slept (world calm.2)
  /\ printed (world calm.2) = printed (world h).
Proof.
  cbv zeta.
  assert (Hagree : agree
            (Embedding.get_embeddings_with_backoff provider input_data true)
            (Embedding.get_embeddings_with_backoff provider input_data false)).
  { unfold Embedding.get_embeddings_with_backoff. cbv zeta.
    apply agree_bind; [apply agree_getattr | intros r]. apply agree_attempts. }
  destruct (Hagree h h (same_but_printed_refl h)) as (Hv & Hs & Hr & Hsl).
  repeat (split; [assumption|]). apply silent_backoff.
Qed.

(** [string], [sequence], [_sequence] and [_sequence_old] never print,
    whatever the provider and numpy do and whatever the [verbose] attribute
    of the instance holds: none of them reads it, and the primitive is
    called without its [verbose] argument. *)
Theorem operations_never_print s texts :
  silent (Embedding.string provider s)
  /\ silent (Embedding.sequence provider asarray texts)
  /\ silent (Embedding._sequence provider texts)
  /\ silent (Embedding._sequence_old provider texts).
Proof.
  split; [|split; [|split]].
  - unfold Embedding.string.
    apply silent_bind; [apply silent_backoff | intros [embed|]];
      [|apply silent_raise].
    apply silent_bind; [apply silent_getitem | intros e; apply silent_ret].
  - unfold Embedding.sequence. cbv zeta.
    apply silent_bind; [apply silent_getattr | intros limit].
    destruct (_ <=? _).
    + apply silent_bind; [apply silent_backoff | intros r; apply silent_ret].
    + apply silent_bind; [apply silent_getattr | intros d].
      apply silent_bind; [apply silent_np_zeros | intros a].
      apply silent_bind; [apply silent_getattr | intros limit'].
      apply silent_bind; [apply silent_range3 | intros starts].
      apply silent_bind; [apply silent_chunk_loop | intros a'; apply silent_ret].
  - unfold Embedding._sequence.
    apply silent_bind; [apply silent_getattr | intros r].
    apply silent_bind; [apply silent__sequence_loop | intros [embed|]];
      [apply silent_ret | apply silent_raise].
  - unfold Embedding._sequence_old.
    apply silent_bind; [apply silent_get_embeddings | intros e; apply silent_ret].
Qed.


(** *** What the verbose primitive prints *)

Lemma attempts_loud batch m d f (errs : nat -> exn) n : forall k0 h rest,
  model (self h) = Some m ->
  api_retry_delay (self h) = Some d ->
  api_backoff_factor (self h) = Some f ->
  0 <= d -> 0 <= f ->
  (forall j, (j < n)%nat ->
     provider (ncalls h + j) batch = Raise (errs (k0 + j)%nat)) ->
  exists h',
    Embedding.attempts provider batch true ((Z.of_nat <$> seq k0 n) ++ rest) h
    = Embedding.attempts provider batch true rest h'
    /\ self h' = self h
    /\ ncalls h' = (ncalls h + n)%nat
    /\ printed (world h')
       = printed (world h)
           ++ ((fun j => (errs j, delay_of d f (Z.of_nat j))) <$> seq k0 n).
Proof.
  induction n as [|n IH]; intros k0 h rest Hm Hd Hf Hd0 Hf0 Hfail.
  - exists h. cbn. rewrite app_nil_r, Nat.add_0_r. auto.
  - pose proof (Hfail 0%nat ltac:(lia)) as He. rewrite !Nat.add_0_r in He.
    pose proof (attempt_failure provider batch true (Z.of_nat k0) h _ m d f
                  Hm Hd Hf He (delay_of_nonneg d f _ Hd0 Hf0)) as Hstep.
    set (h1 := log_sleep (delay_of d f (Z.of_nat k0))
                 (log_print (errs k0) (delay_of d f (Z.of_nat k0))
                    (log_request batch h))) in *.
    destruct (IH (S k0) h1 rest Hm Hd Hf Hd0 Hf0) as (h' & Hrun & Hs & Hn & Hp).
    { intros j Hj. replace (ncalls h1 + j)%nat with (ncalls h + S j)%nat.
      - replace (S k0 + j)%nat with (k0 + S j)%nat by lia. apply Hfail. lia.
      - unfold ncalls. subst h1. cbn. rewrite length_app. cbn. lia. }
    exists h'. split; [|split; [|split]].
    + cbn [seq fmap list_fmap app Embedding.attempts]. unfold bind at 1.
      rewrite Hstep. exact Hrun.
    + rewrite Hs. reflexivity.
    + rewrite Hn. unfold ncalls. subst h1. cbn. rewrite length_app. cbn. lia.
    + rewrite Hp. subst h1. cbn. rewrite <- app_assoc. reflexivity.
Qed.

(** Called with [verbose=True] against a provider that fails on every
    request, the primitive prints one line per attempt, in order, each with
    the error that attempt raised and the wait computed for it. *)
Theorem verbose_prints_each_failure input_data h mv limit D retries d f vb0
    (errs : nat -> exn) :
  self h = configured mv limit D retries d f vb0 ->
  0 <= d -> 0 <= f ->
  (forall j, (j < Z.to_nat retries)%nat ->
     provider (ncalls h + j) (Embedding.as_batch input_data) = Raise (errs j)) ->
  printed (world (Embedding.get_embeddings_with_backoff provider input_data
                    true h).2)
  = printed (world h)
      ++ ((fun j => (errs j, delay_of d f (Z.of_nat j)))
            <$> seq 0 (Z.to_nat retries)).
Proof.
  intros Hself Hd0 Hf0 Hfail.
  destruct (attempts_loud (Embedding.as_batch input_data) mv d f errs
              (Z.to_nat retries) 0%nat h [])
    as (h' & Hrun & _ & _ & Hp); try (rewrite Hself; reflexivity);
    try assumption.
  unfold Embedding.get_embeddings_with_backoff, bind, getattr.
  rewrite Hself. cbn [api_retry_limit configured]. cbv zeta.
  unfold range. rewrite app_nil_r in Hrun. rewrite Hrun. exact Hp.
Qed.

(** *** No attempt allowed *)

(** With [api_retry_limit] zero or negative the loop of the primitive has
    no turn: it gives [None] at once, without a request and without a
    sleep; so [string] raises its [TypeError] and [sequence], on an input
    longer than a positive request limit, gives the array of zeros, both
    without the provider ever being asked. *)
Theorem no_attempt_without_retries input_data vb s texts h mv limit D retries
    d f vb0 :
  self h = configured mv limit D retries d f vb0 ->
  retries <= 0 ->
  Embedding.get_embeddings_with_backoff provider input_data vb h
  = (Return None, h)
  /\ Embedding.string provider s h
     = (Raise (TypeError "'NoneType' object is not subscriptable"), h)
  /\ (0 < limit < Z.of_nat (length texts) -> 0 <= D ->
      Embedding.sequence provider asarray texts h
      = (Return (PyArray (replicate (length texts)
                            (replicate (Z.to_nat D) zero))), h)).
Proof.
  intros Hself Hr.
  assert (Hprim : forall input vb',
            Embedding.get_embeddings_with_backoff provider input vb' h
            = (Return None, h)).
  { intros input vb'.
    unfold Embedding.get_embeddings_with_backoff, bind, getattr.
    rewrite Hself. cbn [api_retry_limit configured]. cbv zeta.
    unfold range. replace (Z.to_nat retries) with 0%nat by lia. reflexivity. }
  split; [apply Hprim|]. split.
  - unfold Embedding.string, bind. rewrite Hprim. reflexivity.
  - intros Hl HD.
    rewrite (sequence_large provider asarray texts mv limit D retries d f vb0
               ltac:(lia) HD h Hself ltac:(lia)).
    unfold bind. rewrite chunk_starts_seq.
    assert (Hc : (0 < Z.to_nat ((Z.of_nat (length texts) - 0 + limit - 1) / limit))%nat).
    { pose proof (chunk_count_covers limit (length texts) ltac:(lia)). nia. }
    destruct (Z.to_nat ((Z.of_nat (length texts) - 0 + limit - 1) / limit))
      as [|c]; [lia|].
    cbn [seq fmap list_fmap Embedding.chunk_loop]. unfold bind, getattr.
    rewrite Hself. cbn [api_request_limit configured]. cbv zeta.
    rewrite Hprim. reflexivity.
Qed.

(** *** A missing model is retried too *)

Lemma attempts_without_model batch vb d f rs : forall h,
  model (self h) = None ->
  api_retry_delay (self h) = Some d ->
  api_backoff_factor (self h) = Some f ->
  0 <= d -> 0 <= f ->
  exists h',
    Embedding.attempts provider batch vb rs h = (Return None, h')
    /\ self h' = self h
    /\ requests (world h') = requests (world h)
    /\ slept (world h') = slept (world h) ++ (delay_of d f <$> rs).
Proof.
  induction rs as [|r rs IH]; intros h Hm Hd Hf Hd0 Hf0.
  - exists h. cbn. rewrite app_nil_r. auto.
  - set (w := delay_of d f r).
    set (h1 := log_sleep w
                 (if vb then log_print (AttributeError "model") w h else h)).
    assert (Hstep : Embedding.attempt provider batch vb r h = (Return None, h1)).
    { unfold Embedding.attempt, try_except, Embedding.get_embeddings, bind,
        getattr.
      rewrite Hm. cbn beta iota. rewrite Hd. cbn beta iota. rewrite Hf.
      cbn beta iota zeta. fold (delay_of d f r). fold w. unfold sleep.
      pose proof (delay_of_nonneg d f r Hd0 Hf0).
      destruct (Z.ltb_spec w 0) as [?|_]; [subst w; lia|].
      subst h1. destruct vb; reflexivity. }
    assert (Hs1 : self h1 = self h) by (subst h1; destruct vb; reflexivity).
    destruct (IH h1) as (h' & Hrun & Hs & Hr & Hsl);
      try (rewrite Hs1; assumption); try assumption.
    exists h'. split; [|split; [|split]].
    + cbn [Embedding.attempts]. unfold bind at 1. rewrite Hstep. exact Hrun.
    + congruence.
    + rewrite Hr. subst h1. destruct vb; reflexivity.
    + rewrite Hsl. subst h1. cbn [fmap list_fmap].
      rewrite (cons_middle w), app_assoc. f_equal.
      destruct vb; reflexivity.
Qed.

(** The [try] of the primitive also covers the read of [self.model]: on
    an instance whose [model] attribute is missing, the [AttributeError] is
    taken for a failed request every time, so the primitive sends nothing,
    sleeps the whole backoff series and gives [None] instead of raising. *)
Theorem missing_model_is_retried input_data vb h o retries d f :
  self h = o ->
  model o = None ->
  api_retry_limit o = Some retries ->
  api_retry_delay o = Some d ->
  api_backoff_factor o = Some f ->
  0 <= d -> 0 <= f ->
  let run := Embedding.get_embeddings_with_backoff provider input_data vb h in
  run.1 = Return None
  /\ requests (world run.2) = requests (world h)
  /\ slept (world run.2) = slept (world h) ++ (delay_of d f <$> range retries).
Proof.
  intros <- Hm Hr Hd Hf Hd0 Hf0. cbv zeta.
  destruct (attempts_without_model (Embedding.as_batch input_data) vb d f
              (range retries) h Hm Hd Hf Hd0 Hf0) as (h' & Hrun & _ & Hreq & Hsl).
  unfold Embedding.get_embeddings_with_backoff, bind, getattr.
  rewrite Hr. cbn beta iota zeta. rewrite Hrun. cbn [fst snd]. auto.
Qed.

(** *** How long the backoff takes *)

Lemma total_app xs ys : total (xs ++ ys) = total xs + total ys.
Proof.
  unfold total. induction xs as [|x xs IH]; cbn; [reflexivity|].
  rewrite IH. lia.
Qed.

Lemma total_delays d f n :
  (f - 1) * total (delay_of d f <$> (Z.of_nat <$> seq 0 n))
  = d * (f ^ Z.of_nat n - 1).
Proof.
  induction n as [|n IH].
  - cbn. lia.
  - rewrite seq_S, !fmap_app, total_app. cbn [fmap list_fmap].
    unfold total at 2. cbn [foldr]. unfold delay_of at 2.
    rewrite Nat2Z.inj_succ, Z.pow_succ_r by lia. cbn [Nat.add]. nia.
Qed.

Lemma delays_grow d f (i j : Z) :
  0 <= d -> 1 <= f -> 0 <= i <= j -> delay_of d f i <= delay_of d f j.
Proof.
  intros Hd Hf Hij. unfold delay_of.
  apply Z.mul_le_mono_nonneg_l; [exact Hd|].
  apply Z.pow_le_mono_r; lia.
Qed.

(** When every request fails the primitive has slept, by the time it gives
    [None], a geometric series of waits: their sum [t] satisfies
    [(f - 1) * t = d * (f ^ retry_limit - 1)] (so [t = retry_limit * d] when
    the factor is 1), and with a factor of at least 1 no wait is shorter
    than the one before it. *)
Theorem backoff_total_wait input_data vb h mv limit D retries d f vb0 :
  self h = configured mv limit D retries d f vb0 ->
  0 <= retries -> 0 <= d -> 0 <= f ->
  (forall j, (j < Z.to_nat retries)%nat ->
     fails_at provider (ncalls h + j) (Embedding.as_batch input_data)) ->
  exists waits,
    slept (world (Embedding.get_embeddings_with_backoff provider input_data
                    vb h).2)
    = slept (world h) ++ waits
    /\ length waits = Z.to_nat retries
    /\ (f - 1) * total waits = d * (f ^ retries - 1)
    /\ (f = 1 -> total waits = retries * d)
    /\ (1 <= f ->
        forall i j wi wj, (i <= j)%nat ->
          waits !! i = Some wi -> waits !! j = Some wj -> wi <= wj).
Proof.
  intros Hself Hr0 Hd0 Hf0 Hfail.
  destruct (backoff_all_fail provider input_data vb h mv d f retries)
    as (h' & Hrun & _ & _ & Hsl & _);
    try (rewrite Hself; reflexivity); try assumption.
  exists (delay_of d f <$> range retries). rewrite Hrun. cbn [snd].
  split; [exact Hsl|]. split; [rewrite length_fmap; apply length_range|].
  assert (Hsum : (f - 1) * total (delay_of d f <$> range retries)
                 = d * (f ^ retries - 1)).
  { unfold range. rewrite total_delays, Z2Nat.id by lia. reflexivity. }
  split; [exact Hsum|]. split.
  - intros ->. clear Hsum. unfold range.
    rewrite <- (Z2Nat.id retries) at 2 by lia.
    generalize (Z.to_nat retries). intros n.
    induction n as [|n IH]; [reflexivity|].
    rewrite seq_S, !fmap_app, total_app, IH. cbn.
    unfold delay_of. rewrite Z.pow_1_l by lia. lia.
  - intros Hf1 i j wi wj Hij Hi Hj. unfold range in Hi, Hj.
    rewrite !list_lookup_fmap in Hi, Hj.
    destruct (seq 0 (Z.to_nat retries) !! i) as [a|] eqn:Ha; [|discriminate Hi].
    destruct (seq 0 (Z.to_nat retries) !! j) as [b|] eqn:Hb; [|discriminate Hj].
    apply lookup_seq in Ha as [-> _]. apply lookup_seq in Hb as [-> _].
    cbn in Hi, Hj. injection Hi as <-. injection Hj as <-.
    apply delays_grow; lia.
Qed.


(** *** What [sequence] sends *)

Lemma obeys_weaken {A} o P b b' (m : M A) :
  (b <= b')%nat -> obeys o P b m -> obeys o P b' m.
Proof.
  intros Hb Hm h Hh. destruct (Hm h Hh) as (Hs & new & Hr & HP & Hl).
  split; [exact Hs|]. exists new.
    split; [exact Hr|]. split; [exact HP | lia].
Qed.

Lemma obeys_still {A} o P (m : M A) :
  (forall h, self (m h).2 = self h
             /\ requests (world (m h).2) = requests (world h)) ->
  obeys o P 0 m.
Proof.
  intros Hm h Hh. destruct (Hm h) as [Hs Hr]. split; [congruence|].
  exists []. rewrite app_nil_r.
  split; [exact Hr|]. split; [constructor | cbn; lia].
Qed.

Lemma obeys_ret {A} o P (a : A) : obeys o P 0 (ret a).
Proof. apply obeys_still. intros h. split; reflexivity. Qed.

Lemma obeys_raise {A} o P e : obeys o P 0 (@raise A e).
Proof. apply obeys_still. intros h. split; reflexivity. Qed.

Lemma obeys_bind {A B} o P b1 b2 (m : M A) (k : A -> M B) :
  obeys o P b1 m -> (forall a, obeys o P b2 (k a)) ->
  obeys o P (b1 + b2) (bind m k).
Proof.
  intros Hm Hk h Hh. unfold bind.
  destruct (Hm h Hh) as (Hs & new & Hr & HP & Hl).
  destruct (m h) as [[a|e] h1]; cbn [fst snd] in *.
  - destruct (Hk a h1 Hs) as (Hs2 & new2 & Hr2 & HP2 & Hl2).
    split; [exact Hs2|]. exists (new ++ new2).
    rewrite Hr2, Hr, app_assoc, length_app.
    split; [reflexivity|].
    split; [apply Forall_app; split; assumption | lia].
  - split; [exact Hs|]. exists new.
    split; [exact Hr|]. split; [exact HP | lia].
Qed.

Lemma obeys_try_except {A} o P b1 b2 (body : M A) (handler : exn -> M A) :
  obeys o P b1 body -> (forall e, obeys o P b2 (handler e)) ->
  obeys o P (b1 + b2) (try_except body handler).
Proof.
  intros Hm Hk h Hh. unfold try_except.
  destruct (Hm h Hh) as (Hs & new & Hr & HP & Hl).
  destruct (body h) as [[a|e] h1]; cbn [fst snd] in *.
  - split; [exact Hs|]. exists new.
    split; [exact Hr|]. split; [exact HP | lia].
  - destruct (Hk e h1 Hs) as (Hs2 & new2 & Hr2 & HP2 & Hl2).
    split; [exact Hs2|]. exists (new ++ new2).
    rewrite Hr2, Hr, app_assoc, length_app.
    split; [reflexivity|].
    split; [apply Forall_app; split; assumption | lia].
Qed.

(** Reading an attribute: what follows runs with the value the instance
    holds. *)
Lemma obeys_getattr {A B} o P b (field : Embedding -> option A) name
    (k : A -> M B) :
  (forall v, field o = Some v -> obeys o P b (k v)) ->
  obeys o P b (bind (getattr field name) k).
Proof.
  intros Hk h Hh. unfold bind, getattr. rewrite Hh.
  destruct (field o) as [v|] eqn:E.
  - apply (Hk v eq_refl h Hh).
  - cbn. split; [exact Hh|]. exists []. rewrite app_nil_r.
    split; [reflexivity|]. split; [constructor | cbn; lia].
Qed.

Lemma obeys_ret_bind {A B} o P b (x : A) (k : A -> M B) :
  obeys o P b (k x) -> obeys o P b (bind (ret x) k).
Proof. intros H h Hh. exact (H h Hh). Qed.

Lemma obeys_sleep o P wait : obeys o P 0 (sleep wait).
Proof.
  apply obeys_still. intros h. unfold sleep.
  destruct (wait <? 0); split; reflexivity.
Qed.

Lemma obeys_print o P e wait : obeys o P 0 (print e wait).
Proof. apply obeys_still. intros h. split; reflexivity. Qed.

Lemma obeys_lift {A} o P (x : outcome A) : obeys o P 0 (Embedding.lift x).
Proof. apply obeys_still. intros h. split; reflexivity. Qed.

Lemma obeys_getitem {A} o P (xs : list A) i : obeys o P 0 (getitem xs i).
Proof.
  apply obeys_still. intros h. unfold getitem.
  destruct (xs !! i); split; reflexivity.
Qed.

Lemma obeys_broadcast o P v w : obeys o P 0 (broadcast v w).
Proof.
  apply obeys_still. intros h. unfold broadcast.
  destruct (length v =? w)%nat; [split; reflexivity|].
  destruct v as [|x [|y v]]; split; reflexivity.
Qed.

Lemma obeys_np_zeros o P n d : obeys o P 0 (np_zeros n d).
Proof.
  apply obeys_still. intros h. unfold np_zeros.
  destruct (_ || _); split; reflexivity.
Qed.

Lemma obeys_get_embeddings o (P : list string -> Prop) batch :
  P batch -> obeys o P 1 (Embedding.get_embeddings provider batch).
Proof.
  intros HP. unfold Embedding.get_embeddings.
  apply (obeys_getattr o P 1). intros m _ h Hh. cbn.
  split; [exact Hh|]. exists [batch].
  split; [reflexivity|]. split; [repeat constructor; exact HP | cbn; lia].
Qed.

Lemma obeys_attempt o (P : list string -> Prop) batch vb r :
  P batch -> obeys o P 1 (Embedding.attempt provider batch vb r).
Proof.
  intros HP. unfold Embedding.attempt.
  apply (obeys_try_except o P 1 0).
  - apply (obeys_bind o P 1 0); [apply obeys_get_embeddings; exact HP|].
    intros a. apply obeys_ret.
  - intros e. apply obeys_getattr. intros d _. apply obeys_getattr. intros f _.
    cbv zeta. apply (obeys_bind o P 0 0).
    + destruct vb; [apply obeys_print | apply obeys_ret].
    + intros _. apply (obeys_bind o P 0 0); [apply obeys_sleep|].
      intros _. apply obeys_ret.
Qed.

Lemma obeys_attempts o (P : list string -> Prop) batch vb rs :
  P batch ->
  obeys o P (length rs) (Embedding.attempts provider batch vb rs).
Proof.
  intros HP. induction rs as [|r rs IH]; cbn [Embedding.attempts length].
  - apply obeys_ret.
  - apply (obeys_bind o P 1 (length rs)); [apply obeys_attempt; exact HP|].
    intros [embed|]; [|exact IH].
    apply (obeys_weaken o P 0); [lia | apply obeys_ret].
Qed.

Lemma obeys_backoff o (P : list string -> Prop) input_data vb retries :
  api_retry_limit o = Some retries ->
  P (Embedding.as_batch input_data) ->
  obeys o P (Z.to_nat retries)
    (Embedding.get_embeddings_with_backoff provider input_data vb).
Proof.
  intros Hr HP. unfold Embedding.get_embeddings_with_backoff. cbv zeta.
  apply obeys_getattr. intros v Hv. rewrite Hr in Hv. injection Hv as <-.
  rewrite <- (length_range retries). apply obeys_attempts. exact HP.
Qed.

Lemma obeys_np_setitem o P a j item :
  obeys o P 0 (Embedding.np_setitem asarray a j item).
Proof.
  unfold Embedding.np_setitem. cbv zeta. destruct (_ || _); [apply obeys_raise|].
  apply (obeys_bind o P 0 0); [apply obeys_lift | intros v].
  apply (obeys_bind o P 0 0); [apply obeys_broadcast | intros row].
  apply obeys_ret.
Qed.

Lemma obeys_write_rows o P embed pairs : forall a,
  obeys o P 0 (Embedding.write_rows asarray a embed pairs).
Proof.
  induction pairs as [|[iy j] pairs IH]; intros a; cbn [Embedding.write_rows];
    [apply obeys_ret|].
  apply (obeys_bind o P 0 0); [apply obeys_getitem | intros item].
  apply (obeys_bind o P 0 0); [apply obeys_np_setitem | intros a']. apply IH.
Qed.

Lemma obeys_chunk_loop o (P : list string -> Prop) texts limit retries starts :
  api_request_limit o = Some limit ->
  api_retry_limit o = Some retries ->
  Forall (fun i => P (slice texts i (i + limit))) starts ->
  forall a,
    obeys o P (length starts * Z.to_nat retries)
      (Embedding.chunk_loop provider asarray texts a starts).
Proof.
  intros Hl Hr. induction 1 as [|i starts Hi _ IH]; intros a;
    cbn [Embedding.chunk_loop length]; [apply obeys_ret|].
  apply obeys_getattr. intros v Hv. rewrite Hl in Hv. injection Hv as <-.
  cbv zeta. replace (S (length starts) * Z.to_nat retries)%nat
    with (Z.to_nat retries + length starts * Z.to_nat retries)%nat by lia.
  apply obeys_bind; [apply (obeys_backoff o P _ _ retries Hr); exact Hi|].
  intros [embed|].
  - replace (length starts * Z.to_nat retries)%nat
      with (0 + length starts * Z.to_nat retries)%nat by lia.
    apply obeys_bind; [apply obeys_write_rows | intros a']. apply IH.
  - apply (obeys_weaken o P 0); [lia | apply obeys_ret].
Qed.

Lemma range3_backwards_is_empty (n : nat) (limit : Z) :
  limit < 0 ->
  Z.to_nat ((0 - Z.of_nat n - limit - 1) / - limit) = 0%nat.
Proof.
  intros Hl.
  assert ((0 - Z.of_nat n - limit - 1) / - limit < 1).
  { apply Z.div_lt_upper_bound; lia. }
  lia.
Qed.

Lemma obeys_sequence o (P : list string -> Prop) texts limit retries :
  api_request_limit o = Some limit ->
  api_retry_limit o = Some retries ->
  (Z.of_nat (length texts) <= limit -> P texts) ->
  (0 < limit -> Forall P (chunks limit texts)) ->
  obeys o P (Nat.max 1 (length (chunks limit texts)) * Z.to_nat retries)
    (Embedding.sequence provider asarray texts).
Proof.
  intros Hl Hr Hshort Hlong. unfold Embedding.sequence. cbv zeta.
  apply obeys_getattr. intros v Hv. rewrite Hl in Hv. injection Hv as <-.
  destruct (Z.leb_spec (Z.of_nat (length texts)) limit) as [Hn|Hn].
  - apply (obeys_weaken o P (Z.to_nat retries + 0)).
    { pose proof (Nat.le_max_l 1 (length (chunks limit texts))). nia. }
    apply obeys_bind; [|intros r; apply obeys_ret].
    apply (obeys_backoff o P _ _ retries Hr). apply Hshort. exact Hn.
  - apply obeys_getattr. intros d _.
    apply (obeys_weaken o P (0 + (length (chunks limit texts) * Z.to_nat retries))).
    { pose proof (Nat.le_max_r 1 (length (chunks limit texts))). nia. }
    apply obeys_bind; [apply obeys_np_zeros | intros a].
    apply obeys_getattr. intros v Hv. rewrite Hl in Hv. injection Hv as <-.
    unfold range3. destruct (Z.eqb_spec limit 0) as [H0|H0].
    { unfold bind at 1. intros h Hh. cbn. split; [exact Hh|]. exists [].
      rewrite app_nil_r. split; [reflexivity|].
      split; [constructor | cbn; lia]. }
    destruct (Z.ltb_spec 0 limit) as [Hpos|Hneg].
    + change ((fun k : nat => 0 + Z.of_nat k * limit) <$>
                seq 0 (Z.to_nat ((Z.of_nat (length texts) - 0 + limit - 1) / limit)))
        with (chunk_starts limit (length texts)).
      apply obeys_ret_bind.
      apply (obeys_weaken o P
               (length (chunk_starts limit (length texts)) * Z.to_nat retries + 0)).
      { unfold chunks. rewrite length_fmap. lia. }
      apply obeys_bind; [|intros a'; apply obeys_ret].
      apply (obeys_chunk_loop o P texts limit retries _ Hl Hr).
      specialize (Hlong Hpos). unfold chunks in Hlong.
      rewrite Forall_fmap in Hlong. exact Hlong.
    + rewrite range3_backwards_is_empty by lia.
      intros h Hh. cbn. split; [exact Hh|]. exists [].
      rewrite app_nil_r. split; [reflexivity|].
      split; [constructor | cbn; lia].
Qed.


(** Whatever the provider and numpy do, no request that [sequence] sends
    holds more strings than [api_request_limit]: the whole input when it is
    short enough, slices of at most that many strings otherwise (and nothing
    at all when the limit is zero or negative and the input longer). *)
Theorem sequence_respects_request_limit texts h o limit retries :
  self h = o ->
  api_request_limit o = Some limit ->
  api_retry_limit o = Some retries ->
  exists new,
    requests (world (Embedding.sequence provider asarray texts h).2)
    = requests (world h) ++ new
    /\ Forall (fun batch : list string => Z.of_nat (length batch) <= limit) new.
Proof.
  intros Hself Hl Hr.
  destruct (obeys_sequence o
              (fun batch : list string => Z.of_nat (length batch) <= limit)
              texts limit retries Hl Hr) with (h := h)
    as (_ & new & Hreq & HP & _).
  - intros Hn. exact Hn.
  - intros Hpos. rewrite (chunks_take_drop limit texts Hpos).
    apply Forall_fmap, Forall_forall. intros i _. cbn.
    rewrite length_take. lia.
  - exact Hself.
  - exists new. split; [exact Hreq | exact HP].
Qed.

(** With a positive request limit, every request that [sequence] sends is
    the whole input or one of its chunks, and there are at most
    [api_retry_limit] requests per chunk (per input, when it is short). *)
Theorem sequence_request_budget texts h o limit retries :
  self h = o ->
  api_request_limit o = Some limit ->
  api_retry_limit o = Some retries ->
  0 < limit ->
  exists new,
    requests (world (Embedding.sequence provider asarray texts h).2)
    = requests (world h) ++ new
    /\ Forall (fun batch => batch = texts \/ batch ∈ chunks limit texts) new
    /\ (length new
        <= Nat.max 1 (length (chunks limit texts)) * Z.to_nat retries)%nat.
Proof.
  intros Hself Hl Hr Hpos.
  destruct (obeys_sequence o
              (fun batch => batch = texts \/ batch ∈ chunks limit texts)
              texts limit retries Hl Hr) with (h := h)
    as (_ & new & Hreq & HP & Hlen).
  - intros _. left. reflexivity.
  - intros _. apply Forall_forall. intros batch Hb. right. exact Hb.
  - exact Hself.
  - exists new. split; [exact Hreq|]. split; [exact HP | exact Hlen].
Qed.

(** *** A request limit that is not positive *)

(** With [api_request_limit] zero, [sequence] on a non-empty input raises
    the [ValueError] of [range] with a zero step, after allocating the
    array and before any request; with a negative limit it returns the
    array of zeros for every input, the empty one included, and the
    provider is never asked. *)
Theorem sequence_without_positive_limit texts h mv limit D retries d f vb0 :
  self h = configured mv limit D retries d f vb0 ->
  0 <= D ->
  (limit = 0 -> texts <> [] ->
   Embedding.sequence provider asarray texts h
   = (Raise (ValueError "range() arg 3 must not be zero"), h))
  /\ (limit < 0 ->
      Embedding.sequence provider asarray texts h
      = (Return (PyArray (replicate (length texts)
                            (replicate (Z.to_nat D) zero))), h)).
Proof.
  intros Hself HD.
  assert (Hstart : limit < Z.of_nat (length texts) ->
            Embedding.sequence provider asarray texts h
            = (starts <- range3 0 (Z.of_nat (length texts)) limit ;;
               a <- Embedding.chunk_loop provider asarray texts
                      (replicate (length texts) (replicate (Z.to_nat D) zero))
                      starts ;;
               ret (PyArray a)) h).
  { intros Hn. unfold Embedding.sequence. cbv zeta.
    unfold bind at 1, getattr. rewrite Hself.
    cbn [api_request_limit configured].
    destruct (Z.leb_spec (Z.of_nat (length texts)) limit) as [?|_]; [lia|].
    unfold bind at 1. rewrite Hself. cbn [size configured].
    unfold bind at 1, np_zeros.
    destruct (Z.ltb_spec (Z.of_nat (length texts)) 0) as [?|_]; [lia|].
    destruct (Z.ltb_spec D 0) as [?|_]; [lia|].
    cbn [orb]. unfold ret at 1. rewrite Nat2Z.id.
    unfold bind at 1. rewrite Hself. cbn [api_request_limit configured].
    reflexivity. }
  split.
  - intros -> Hne. rewrite Hstart.
    + reflexivity.
    + destruct texts; [contradiction | cbn; lia].
  - intros Hneg. rewrite Hstart by lia.
    unfold bind at 1, range3.
    destruct (Z.eqb_spec limit 0) as [?|_]; [lia|].
    destruct (Z.ltb_spec 0 limit) as [?|_]; [lia|].
    rewrite range3_backwards_is_empty by lia. reflexivity.
Qed.


(** *** The shape of the array *)

Lemma bind_returns {A B} (m : M A) (k : A -> M B) h b h' :
  bind m k h = (Return b, h') ->
  exists a h1, m h = (Return a, h1) /\ k a h1 = (Return b, h').
Proof.
  unfold bind. destruct (m h) as [[a|e] h1]; [|discriminate].
  intros E. exists a, h1. split; [reflexivity | exact E].
Qed.

Lemma np_setitem_shaped n d a j item :
  shaped n d a ->
  returns_only (shaped n d) (Embedding.np_setitem asarray a j item).
Proof.
  intros [Hlen Hw] h a' h'. unfold Embedding.np_setitem. cbv zeta.
  set (idx := if j <? 0 then j + Z.of_nat (length a) else j).
  destruct (Z.ltb_spec idx 0) as [?|Hlo]; [discriminate|].
  destruct (Z.leb_spec (Z.of_nat (length a)) idx) as [?|Hhi]; [discriminate|].
  cbn [orb]. intros E.
  apply bind_returns in E as (v & h1 & _ & E).
  apply bind_returns in E as (row & h2 & Hrow & E).
  unfold ret in E; cbn beta in E. injection E as <- _.
  destruct (lookup_lt_is_Some_2 a (Z.to_nat idx)) as [old Hold]; [lia|].
  assert (Hd : length old = d) by (eapply Forall_lookup_1 in Hw; eauto).
  unfold Matrix in *. rewrite Hold in Hrow.
  change (default [] (Some old)) with old in Hrow.
  split; [rewrite length_insert; exact Hlen|].
  apply Forall_insert; [exact Hw|].
  unfold broadcast in Hrow.
  destruct (Nat.eqb_spec (length v) (length old)) as [Hv|_].
  - unfold ret in Hrow; cbn beta in Hrow. injection Hrow as <- _. congruence.
  - destruct v as [|x [|y v]]; try discriminate Hrow.
    unfold ret in Hrow; cbn beta in Hrow. injection Hrow as <- _.
    rewrite length_replicate. exact Hd.
Qed.

Lemma write_rows_shaped n d embed pairs : forall a,
  shaped n d a ->
  returns_only (shaped n d) (Embedding.write_rows asarray a embed pairs).
Proof.
  induction pairs as [|[iy j] pairs IH]; intros a Ha h a' h';
    cbn [Embedding.write_rows].
  - unfold ret; cbn beta. intros E. injection E as <- _. exact Ha.
  - intros E. apply bind_returns in E as (item & h1 & _ & E).
    apply bind_returns in E as (a1 & h2 & Hset & E).
    eapply IH; [|exact E]. eapply np_setitem_shaped; [exact Ha | exact Hset].
Qed.

Lemma chunk_loop_shaped n d texts starts : forall a,
  shaped n d a ->
  returns_only (shaped n d)
    (Embedding.chunk_loop provider asarray texts a starts).
Proof.
  induction starts as [|i starts IH]; intros a Ha h a' h';
    cbn [Embedding.chunk_loop].
  - unfold ret; cbn beta. intros E. injection E as <- _. exact Ha.
  - intros E. apply bind_returns in E as (limit & h1 & _ & E). cbv zeta in E.
    apply bind_returns in E as ([embed|] & h2 & _ & E).
    + apply bind_returns in E as (a1 & h3 & Hw & E).
      eapply IH; [|exact E]. eapply write_rows_shaped; [exact Ha | exact Hw].
    + unfold ret in E; cbn beta in E. injection E as <- _. exact Ha.
Qed.

(** Whatever the provider and numpy do: when [sequence], on an input of
    more strings than the request limit, returns, what it returns is an
    array with one row per input string and [size] components in each row;
    never [None], never a list, never an array of another shape. *)
Theorem sequence_long_shape texts h o limit D v h' :
  self h = o ->
  api_request_limit o = Some limit ->
  size o = Some D ->
  limit < Z.of_nat (length texts) ->
  Embedding.sequence provider asarray texts h = (Return v, h') ->
  exists a, v = PyArray a /\ shaped (length texts) (Z.to_nat D) a.
Proof.
  intros Hself Hl HD Hn. unfold Embedding.sequence. cbv zeta.
  unfold bind at 1, getattr. rewrite Hself, Hl.
  destruct (Z.leb_spec (Z.of_nat (length texts)) limit) as [?|_]; [lia|].
  unfold bind at 1. rewrite Hself, HD. intros E.
  apply bind_returns in E as (a0 & h1 & Hz & E).
  apply bind_returns in E as (limit' & h2 & _ & E).
  apply bind_returns in E as (starts & h3 & _ & E).
  apply bind_returns in E as (a & h4 & Hloop & E).
  unfold ret in E; cbn beta in E. injection E as <- _.
  exists a. split; [reflexivity|].
  eapply chunk_loop_shaped; [|exact Hloop].
  unfold np_zeros in Hz. destruct (_ || _); [discriminate Hz|].
  unfold ret in Hz; cbn beta in Hz. injection Hz as <- _. rewrite Nat2Z.id.
  split; [apply length_replicate|].
  apply Forall_replicate, length_replicate.
Qed.

(** *** The other methods and the instance *)

(** [_sequence] and [_sequence_old] leave the instance as they found it,
    like the other methods: only [__init__] assigns attributes. *)
Theorem legacy_operations_frame_the_instance texts :
  frames (Embedding._sequence provider texts)
  /\ frames (Embedding._sequence_old provider texts).
Proof.
  split.
  - unfold Embedding._sequence.
    apply frames_bind; [apply frames_getattr | intros r].
    apply frames_bind; [apply frames__sequence_loop | intros [embed|]].
    + apply frames_ret.
    + apply frames_raise.
  - unfold Embedding._sequence_old.
    apply frames_bind; [apply frames_get_embeddings | intros e].
    apply frames_ret.
Qed.


(** *** The two older paths *)

(** Against a provider that answers every request, each string by itself,
    [_sequence_old] and [_sequence] give the same rows, the vectors of the
    strings in the order of the input: the first after one request for the
    whole input, the second after [api_retry_limit] such requests.  Neither
    cuts the input, however long it is and whatever [api_request_limit]
    holds. *)
Theorem legacy_paths_agree texts h mv limit D retries d f vb0
    (emb : string -> TextEmbedding) :
  self h = configured mv limit D retries d f vb0 ->
  1 <= retries ->
  (forall k (batch : list string),
     provider k batch = Return (fmap (M:=list) emb batch)) ->
  let rows := (fun s => values (emb s)) <$> texts in
  Embedding._sequence_old provider texts h = (Return rows, log_request texts h)
  /\ Embedding._sequence provider texts h
     = (Return rows, log_requests (Z.to_nat retries) texts h).
Proof.
  intros Hself Hr Hup rows.
  assert (Hm : model (self h) = Some mv) by (rewrite Hself; reflexivity).
  assert (Hrows : values <$> (emb <$> texts) = rows).
  { subst rows. rewrite <- list_fmap_compose. reflexivity. }
  split.
  - unfold Embedding._sequence_old, Embedding.get_embeddings, bind, getattr.
    rewrite Hm. cbn beta iota. rewrite Hup. cbn beta iota.
    unfold ret. rewrite Hrows. reflexivity.
  - rewrite (_sequence_run provider texts h mv retries Hm)
      by (rewrite Hself; reflexivity).
    rewrite (last_answer_last_success provider texts (Z.to_nat retries)
               (ncalls h) None (Z.to_nat retries - 1) (emb <$> texts)).
    + rewrite Hrows. reflexivity.
    + lia.
    + apply Hup.
    + intros j Hj. lia.
Qed.

(** *** When numpy or the provider does not play along *)

(** [sequence] assigns the provider's item itself to the row, not its
    [values]: when numpy cannot read an item as a row, the error it raises
    leaves [sequence] as soon as the first chunk has been answered; the
    array is lost and no other chunk is requested. *)
Theorem unreadable_item_aborts_sequence texts h mv limit D retries d f vb0
    item embed e :
  self h = configured mv limit D retries d f vb0 ->
  0 < limit < Z.of_nat (length texts) ->
  0 <= D -> 1 <= retries ->
  provider (ncalls h) (take (Z.to_nat limit) texts) = Return (item :: embed) ->
  asarray item = Raise e ->
  Embedding.sequence provider asarray texts h
  = (Raise e, log_request (take (Z.to_nat limit) texts) h).
Proof.
  intros Hself [Hpos Hn] HD Hr Hok Hbad.
  rewrite (sequence_large provider asarray texts mv limit D retries d f vb0
             Hpos HD h Hself Hn).
  unfold bind at 1. rewrite chunk_starts_seq.
  assert (Hc : (0 < Z.to_nat ((Z.of_nat (length texts) - 0 + limit - 1) / limit))%nat).
  { pose proof (chunk_count_covers limit (length texts) Hpos). nia. }
  destruct (Z.to_nat ((Z.of_nat (length texts) - 0 + limit - 1) / limit))
    as [|c]; [lia|].
  cbn [seq fmap list_fmap Embedding.chunk_loop]. unfold bind at 1, getattr.
  rewrite Hself. cbn [api_request_limit configured]. cbv zeta.
  rewrite (slice_take_drop texts limit 0 Hpos). cbn [Nat.mul]. rewrite drop_0.
  unfold bind at 1.
  rewrite (backoff_first_try provider mv limit D retries d f vb0
             (Seq (take (Z.to_nat limit) texts)) false h (item :: embed)
             Hself Hr Hok).
  cbn [Embedding.as_batch].
  assert (Hlen : (0 < length (take (Z.to_nat limit) texts))%nat).
  { rewrite length_take. lia. }
  destruct (length (take (Z.to_nat limit) texts)) as [|m]; [lia|].
  replace (0 + Z.of_nat 0 * limit) with (Z.of_nat 0) by lia.
  rewrite enumerate_range2.
  cbn [seq fmap list_fmap Embedding.write_rows]. unfold bind at 1, getitem.
  cbn [lookup list_lookup]. unfold ret at 1. unfold bind at 1.
  unfold Embedding.np_setitem. cbv zeta. rewrite length_replicate.
  change (Z.of_nat 0 + Z.of_nat 0) with 0. change (0 <? 0) with false.
  cbn beta iota.
  destruct (Z.leb_spec (Z.of_nat (length texts)) 0) as [?|_]; [lia|].
  cbn [orb]. unfold bind at 1, Embedding.lift. rewrite Hbad. reflexivity.
Qed.

(** When the provider answers a request with an empty list, [string] and
    the long branch of [sequence] raise the [IndexError] of indexing that
    list ([embed[0]]), after that one request and whatever numpy does:
    not the [TypeError] of retries run out, and no array. *)
Theorem empty_answer_raises_index_error s texts h mv limit D retries d f vb0 :
  self h = configured mv limit D retries d f vb0 ->
  1 <= retries ->
  (provider (ncalls h) [s] = Return [] ->
   Embedding.string provider s h
   = (Raise (IndexError "list index out of range"), log_request [s] h))
  /\ (0 < limit < Z.of_nat (length texts) -> 0 <= D ->
      provider (ncalls h) (take (Z.to_nat limit) texts) = Return [] ->
      Embedding.sequence provider asarray texts h
      = (Raise (IndexError "list index out of range"),
         log_request (take (Z.to_nat limit) texts) h)).
Proof.
  intros Hself Hr. split.
  - intros Hok. unfold Embedding.string, bind.
    rewrite (backoff_first_try provider mv limit D retries d f vb0 (Str s)
               false h [] Hself Hr Hok).
    reflexivity.
  - intros Hl HD Hok.
    apply (first_answer_empty provider asarray texts h mv limit D retries d f vb0 _ Hself Hl HD).
    apply (backoff_first_try provider mv limit D retries d f vb0
             (Seq (take (Z.to_nat limit) texts)) false h [] Hself Hr Hok).
Qed.

End Extras.

(** ** The further properties at work on concrete providers *)

Lemma verbose_prints_each_failure_witness :
  printed (world (Embedding.get_embeddings_with_backoff always_down
                    (Seq ["a"]) true (demo_heap 5 2)).2)
  = [(ProviderError "503 service unavailable", 1);
     (ProviderError "503 service unavailable", 2)].
Proof.
  apply (verbose_prints_each_failure always_down (Seq ["a"]) (demo_heap 5 2)
           _ 5 2 2 1 2 false
           (fun _ => ProviderError "503 service unavailable")
           eq_refl ltac:(lia) ltac:(lia)).
  intros j _. reflexivity.
Defined.

Lemma no_attempt_without_retries_witness :
  Embedding.get_embeddings_with_backoff always_up (Seq ["a"]) false
    (demo_heap 2 0)
  = (Return None, demo_heap 2 0)
  /\ Embedding.sequence always_up by_values ["a"; "bb"; "ccc"] (demo_heap 2 0)
     = (Return (PyArray [[zero; zero]; [zero; zero]; [zero; zero]]),
        demo_heap 2 0).
Proof.
  destruct (no_attempt_without_retries always_up by_values (Seq ["a"]) false
              "a" ["a"; "bb"; "ccc"] (demo_heap 2 0) _ 2 2 0 1 2 false
              eq_refl ltac:(lia)) as (Hprim & _ & Hseq).
  split; [exact Hprim|]. apply Hseq; cbn; lia.
Defined.

Lemma missing_model_is_retried_witness :
  let h := mkHeap (mkEmbedding (Some "gecko") (Some 5) None (Some 2) (Some 3)
                     (Some 1) (Some 2) (Some false)) quiet in
  let run := Embedding.get_embeddings_with_backoff always_up (Seq ["a"])
               false h in
  run.1 = Return None
  /\ requests (world run.2) = []
  /\ slept (world run.2) = [1; 2; 4].
Proof.
  exact (missing_model_is_retried always_up (Seq ["a"]) false
           (mkHeap (mkEmbedding (Some "gecko") (Some 5) None (Some 2) (Some 3)
                      (Some 1) (Some 2) (Some false)) quiet)
           _ 3 1 2 eq_refl eq_refl eq_refl eq_refl eq_refl
           ltac:(lia) ltac:(lia)).
Defined.

Lemma backoff_total_wait_witness :
  exists waits,
    slept (world (Embedding.get_embeddings_with_backoff always_down
                    (Seq ["a"]) false (demo_heap 5 3)).2) = waits
    /\ total waits = 7.
Proof.
  destruct (backoff_total_wait always_down (Seq ["a"]) false (demo_heap 5 3)
              _ 5 2 3 1 2 false eq_refl ltac:(lia) ltac:(lia) ltac:(lia))
    as (waits & Hsl & _ & Hsum & _).
  - intros j _. exists (ProviderError "503 service unavailable"). reflexivity.
  - exists waits. split; [exact Hsl|]. cbn in Hsum. lia.
Defined.

Lemma sequence_respects_request_limit_witness :
  exists new,
    requests (world (Embedding.sequence (up_until 1) by_values
                       ["a"; "bb"; "ccc"; "dddd"] (demo_heap 2 2)).2)
    = new
    /\ Forall (fun batch : list string => Z.of_nat (length batch) <= 2) new.
Proof.
  exact (sequence_respects_request_limit (up_until 1) by_values
           ["a"; "bb"; "ccc"; "dddd"] (demo_heap 2 2) _ 2 2
           eq_refl eq_refl eq_refl).
Defined.

Lemma sequence_request_budget_witness :
  exists new,
    requests (world (Embedding.sequence (up_until 1) by_values
                       ["a"; "bb"; "ccc"; "dddd"] (demo_heap 2 2)).2)
    = new
    /\ (length new <= 4)%nat.
Proof.
  destruct (sequence_request_budget (up_until 1) by_values
              ["a"; "bb"; "ccc"; "dddd"] (demo_heap 2 2) _ 2 2
              eq_refl eq_refl eq_refl ltac:(lia)) as (new & Hreq & _ & Hlen).
  exists new. split; [exact Hreq | exact Hlen].
Defined.

Lemma sequence_without_positive_limit_witness :
  Embedding.sequence always_up by_values ["a"] (demo_heap 0 2)
  = (Raise (ValueError "range() arg 3 must not be zero"), demo_heap 0 2)
  /\ Embedding.sequence always_up by_values ["a"; "bb"] (demo_heap (-3) 2)
     = (Return (PyArray [[zero; zero]; [zero; zero]]), demo_heap (-3) 2).
Proof.
  split.
  - apply (sequence_without_positive_limit always_up by_values ["a"]
             (demo_heap 0 2) _ 0 2 2 1 2 false eq_refl ltac:(lia));
      [reflexivity | discriminate].
  - apply (sequence_without_positive_limit always_up by_values ["a"; "bb"]
             (demo_heap (-3) 2) _ (-3) 2 2 1 2 false eq_refl ltac:(lia)).
    lia.
Defined.

Lemma sequence_long_shape_witness :
  exists a,
    (Embedding.sequence (up_until 1) by_values ["a"; "bb"; "ccc"; "dddd"]
       (demo_heap 2 2)).1 = Return (PyArray a)
    /\ shaped 4 2 a.
Proof.
  destruct (sequence_long_shape (up_until 1) by_values
              ["a"; "bb"; "ccc"; "dddd"] (demo_heap 2 2) _ 2 2 _ _
              eq_refl eq_refl eq_refl eq_refl eq_refl) as (a & Ha & Hshape).
  exists a. split; [|exact Hshape]. rewrite <- Ha. reflexivity.
Defined.

Lemma legacy_paths_agree_witness :
  (Embedding._sequence_old always_up ["a"; "bb"; "ccc"] (demo_heap 2 2)).1
  = Return [values (demo_embed "a"); values (demo_embed "bb");
            values (demo_embed "ccc")]
  /\ (Embedding._sequence always_up ["a"; "bb"; "ccc"] (demo_heap 2 2)).1
     = Return [values (demo_embed "a"); values (demo_embed "bb");
               values (demo_embed "ccc")].
Proof.
  destruct (legacy_paths_agree always_up ["a"; "bb"; "ccc"] (demo_heap 2 2)
              _ 2 2 2 1 2 false demo_embed eq_refl ltac:(lia)
              (fun _ _ => eq_refl)) as [Hold Hdup].
  split; [rewrite Hold | rewrite Hdup]; reflexivity.
Defined.

Lemma unreadable_item_aborts_sequence_witness :
  (Embedding.sequence always_up unreadable ["a"; "bb"; "ccc"] (demo_heap 2 1)).1
  = Raise (TypeError "float() argument must be a string or a real number").
Proof.
  rewrite (unreadable_item_aborts_sequence always_up unreadable
             ["a"; "bb"; "ccc"] (demo_heap 2 1) _ 2 2 1 1 2 false
             (demo_embed "a") [demo_embed "bb"] _ eq_refl
             ltac:(cbn; lia) ltac:(lia) ltac:(lia) eq_refl eq_refl).
  reflexivity.
Defined.

Lemma empty_answer_raises_index_error_witness :
  (Embedding.string answers_nothing "a" (demo_heap 2 1)).1
  = Raise (IndexError "list index out of range")
  /\ (Embedding.sequence answers_nothing unreadable ["a"; "bb"; "ccc"]
        (demo_heap 2 1)).1
     = Raise (IndexError "list index out of range").
Proof.
  destruct (empty_answer_raises_index_error answers_nothing unreadable "a"
              ["a"; "bb"; "ccc"] (demo_heap 2 1) _ 2 2 1 1 2 false
              eq_refl ltac:(lia)) as [Hstring Hseq].
  split.
  - rewrite (Hstring eq_refl). reflexivity.
  - rewrite (Hseq ltac:(cbn; lia) ltac:(lia) eq_refl). reflexivity.
Defined.
